(** * Android/MorganaSchedualer/images/icon_resize.py

    The script reads one picture and writes five resized launcher icons
    into the Android resource tree.  Everything it does goes through the
    Python standard library ([os], [os.path]) and Pillow ([PIL.Image]), so
    the development has these layers:

    - [Posixpath]: the string functions of [os.path] the script calls;
    - [Fs] and [Pil]: a model of the platform, a file system keyed by
      resolved paths, and the part of Pillow's [Image] the script
      reaches;
    - [Py]: the process, a state and exception monad over the platform,
      with [os.makedirs], [Image.open] and [Image.save];
    - [IconResize]: the script itself, statement by statement;
    - [Spec] and [Examples]: the vocabulary of the statements and worlds
      to run the script in.

    The file system has directories and regular files only: no symbolic
    or hard links, no permissions, no full disk, and nobody else writing
    to it during a run.  A regular file holds either a picture that
    decodes, in one of the pixel modes of [Pil.mode], or bytes that are
    no picture.  Printing never fails. *)

From stdpp Require Import gmap strings list fin_maps pretty.
From Stdlib Require Import ZArith Ascii String.

Open Scope string_scope.
Open Scope Z_scope.
Open Scope list_scope.

(** ** [os.path] on POSIX (posixpath.py) *)

Module Posixpath.

Definition sep : ascii := "/"%char.

Definition is_sep (c : ascii) : bool := bool_decide (c = sep).

(** [p[:i], p[i:]] for [i = p.rfind(sep) + 1]: the part up to and
    including the last separator, and the rest. *)
Fixpoint cut_last_sep (p : string) : string * string :=
  match p with
  | EmptyString => ("", "")
  | String c r =>
      let '(h, t) := cut_last_sep r in
      match h with
      | EmptyString => if is_sep c then (String c "", r) else ("", String c r)
      | _ => (String c h, t)
      end
  end.

(** [head == sep * len(head)] *)
Fixpoint all_sep (s : string) : bool :=
  match s with
  | EmptyString => true
  | String c r => is_sep c && all_sep r
  end.

(** [head.rstrip(sep)] *)
Fixpoint rstrip_sep (s : string) : string :=
  match s with
  | EmptyString => ""
  | String c r =>
      match rstrip_sep r with
      | EmptyString => if is_sep c then "" else String c ""
      | r' => String c r'
      end
  end.

(** [os.path.split] *)
Definition split (p : string) : string * string :=
  let '(head, tail) := cut_last_sep p in
  let head :=
    if negb (bool_decide (head = "")) && negb (all_sep head)
    then rstrip_sep head else head in
  (head, tail).

(** [os.path.dirname] *)
Definition dirname (p : string) : string := fst (split p).

Definition startswith_sep (s : string) : bool :=
  match s with
  | String c _ => is_sep c
  | EmptyString => false
  end.

Fixpoint endswith_sep (s : string) : bool :=
  match s with
  | EmptyString => false
  | String c EmptyString => is_sep c
  | String _ r => endswith_sep r
  end.

(** One round of the loop of [os.path.join]. *)
Definition join1 (path b : string) : string :=
  if startswith_sep b then b
  else if bool_decide (path = "") || endswith_sep path then (path ++ b)%string
  else (path ++ String sep b)%string.

(** [os.path.join(a, *p)] *)
Definition join (a : string) (p : list string) : string :=
  foldl join1 a p.

(** The extension as [os.path.splitext(p)[1]] gives it: from the last dot
    of the last component, leading dots of the component not counting. *)
Fixpoint lstrip_dots (s : string) : string :=
  match s with
  | String "."%char r => lstrip_dots r
  | _ => s
  end.

Fixpoint from_last_dot (s : string) : string :=
  match s with
  | EmptyString => ""
  | String c r =>
      match from_last_dot r with
      | EmptyString => if bool_decide (c = "."%char) then s else ""
      | e => e
      end
  end.

Definition splitext_ext (p : string) : string :=
  from_last_dot (lstrip_dots (snd (cut_last_sep p))).

End Posixpath.

(** ** The file system *)

Module Fs.

(** An entry is a directory or a regular file with its content. *)
Section Node.
Context {content : Type}.

Inductive node :=
  | Dir
  | File (c : content).

End Node.
Arguments node : clear implicits.

Inductive errno := ENOENT | ENOTDIR | EEXIST | EISDIR.

(** A resolved path: the names from the root down.  The root is [[]]. *)
Definition key := list string.

(** The pieces of a path between separators: ["/a/b"] gives
    [[""; "a"; "b"]]. *)
Fixpoint components (p : string) : list string :=
  match p with
  | EmptyString => [""]
  | String c r =>
      if Posixpath.is_sep c then "" :: components r
      else match components r with
           | x :: xs => String c x :: xs
           | [] => [String c ""]
           end
  end.

Definition is_dot (c : string) : bool :=
  bool_decide (c = "") || bool_decide (c = ".").

Definition is_dotdot (c : string) : bool := bool_decide (c = "..").

Section Resolve.
Context {content : Type}.
Abbreviation tree := (gmap key (node content)).

(** The root always is a directory. *)
Definition node_at (t : tree) (k : key) : option (node content) :=
  match k with
  | [] => Some Dir
  | _ => t !! k
  end.

(** Where a path lands once ["."], [".."] and empty pieces are folded
    away: what the kernel's walk computes when every directory on the
    way exists. *)
Definition norm_step (cur : key) (c : string) : key :=
  if is_dot c then cur
  else if is_dotdot c then removelast cur
  else cur ++ [c].

Definition origin (cwd : key) (p : string) : key :=
  if Posixpath.startswith_sep p then [] else cwd.

Definition norm (cwd : key) (p : string) : key :=
  foldl norm_step (origin cwd p) (components p).

(** The walk.  [cur] is a directory already reached. Every piece but the
    last has to name a directory; the last may be missing, and the result
    tells the entry it would have and what is there. *)
Fixpoint walk (t : tree) (cur : key) (cs : list string)
  : errno + (key * option (node content)) :=
  match cs with
  | [] => inr (cur, node_at t cur)
  | [c] => let k := norm_step cur c in inr (k, node_at t k)
  | c :: rest =>
      let k := norm_step cur c in
      match node_at t k with
      | Some Dir => walk t k rest
      | Some (File _) => inl ENOTDIR
      | None => inl ENOENT
      end
  end.

Definition namei (t : tree) (cwd : key) (p : string)
  : errno + (key * option (node content)) :=
  if bool_decide (p = "") then inl ENOENT
  else
    match node_at t (origin cwd p) with
    | Some Dir => walk t (origin cwd p) (components p)
    | Some (File _) => inl ENOTDIR
    | None => inl ENOENT
    end.

(** [stat(2)] succeeding. *)
Definition exists_ (t : tree) (cwd : key) (p : string) : bool :=
  match namei t cwd p with
  | inr (_, Some _) => true
  | _ => false
  end.

(** [mkdir(2)] *)
Definition mkdir (t : tree) (cwd : key) (p : string) : errno + tree :=
  match namei t cwd p with
  | inl e => inl e
  | inr (_, Some _) => inl EEXIST
  | inr (k, None) => inr (<[k := Dir]> t)
  end.

(** [open(2)] for reading. *)
Definition read (t : tree) (cwd : key) (p : string) : errno + content :=
  match namei t cwd p with
  | inl e => inl e
  | inr (_, None) => inl ENOENT
  | inr (_, Some Dir) => inl EISDIR
  | inr (_, Some (File c)) => inr c
  end.

(** [open(2)] with [O_WRONLY|O_CREAT|O_TRUNC] followed by the write of
    [c]. *)
Definition write (t : tree) (cwd : key) (p : string) (c : content)
  : errno + tree :=
  match namei t cwd p with
  | inl e => inl e
  | inr (_, Some Dir) => inl EISDIR
  | inr (k, _) => inr (<[k := File c]> t)
  end.

(** A tree that keeps every directory of another resolves at least the
    same paths, to the same entries. *)
Definition keeps_dirs (t t' : tree) : Prop :=
  ∀ k, node_at t k = Some Dir → node_at t' k = Some Dir.

(** How a tree may differ from an earlier one: directories appear at
    entries [D] that were free, regular files are written at entries [O]
    that held no directory, and nothing else moves. *)
Definition changes (D O : key → Prop) (t t' : tree) : Prop :=
  ∀ k,
    t' !! k = t !! k
    ∨ (t !! k = None ∧ t' !! k = Some Dir ∧ D k)
    ∨ (O k ∧ t !! k ≠ Some Dir ∧ ∃ c, t' !! k = Some (File c)).

End Resolve.

End Fs.

(** ** Pillow: the part of [PIL.Image] the script reaches *)

Module Pil.

(** Pixel layouts ([Image.mode]); [M1] and [F32] are the modes Pillow
    writes "1" and "F".  The integer mode "I" is left out: whether the
    PNG writer takes it depends on the version of Pillow. *)
Inductive mode :=
  M1 | L | LA | P | RGB | RGBA | CMYK | YCbCr | F32.

Inductive format := PNG | JPEG | GIF | BMP | TIFF | WEBP.

(** [Image.Resampling] *)
Inductive resampling := NEAREST | LANCZOS | BILINEAR | BICUBIC | BOX | HAMMING.

(** The samples of a picture.  The arithmetic of a resampling kernel is
    floating point and is left uninterpreted: a resampled raster records
    the filter, the region of the source that was read, the source and
    the size asked for. *)
Inductive raster :=
  | Samples (data : list Z)
  | Resampled (filter : resampling) (box : Z * Z * Z * Z) (src : raster)
              (size : Z * Z).

(** An [Image] object. [im_format] is [None] for a picture that was
    computed rather than read. *)
Record image := {
  im_format : option format;
  im_mode : mode;
  im_size : Z * Z;
  im_data : raster
}.

(** What a regular file holds. *)
Inductive content :=
  | Encoded (fmt : format) (m : mode) (size : Z * Z) (px : raster)
  | Blob (bytes : string).

#[export] Instance mode_eq_dec : EqDecision mode.
Proof. solve_decision. Defined.
#[export] Instance format_eq_dec : EqDecision format.
Proof. solve_decision. Defined.
#[export] Instance resampling_eq_dec : EqDecision resampling.
Proof. solve_decision. Defined.

Definition decode (fmt : format) (m : mode) (size : Z * Z) (px : raster)
  : image :=
  {| im_format := Some fmt; im_mode := m; im_size := size; im_data := px |}.

(** [Image.resize(size, resample)] with [box] and [reducing_gap] left at
    their defaults, as Image.py has it: the box is the whole picture,
    [(0, 0) + self.size]; a picture that already has the size is copied;
    for the modes "1" and "P" the filter is set to NEAREST, whatever
    filter was asked for (the documentation of the [resample] parameter
    says so as well); otherwise the picture is resampled with the filter
    given.  The detour through premultiplied alpha for "LA" and "RGBA"
    is part of the uninterpreted resampling. *)
Definition resize (im : image) (size : Z * Z) (resample : resampling)
  : image :=
  let box := (0, 0, fst (im_size im), snd (im_size im)) in
  if bool_decide (im_size im = size) then
    {| im_format := None; im_mode := im_mode im; im_size := im_size im;
       im_data := im_data im |}
  else
    let resample :=
      if bool_decide (im_mode im = M1) || bool_decide (im_mode im = P)
      then NEAREST else resample in
    {| im_format := None; im_mode := im_mode im; im_size := size;
       im_data := Resampled resample box (im_data im) size |}.

Definition lower_ascii (c : ascii) : ascii :=
  let n := nat_of_ascii c in
  if (65 <=? n)%nat && (n <=? 90)%nat then ascii_of_nat (n + 32) else c.

Fixpoint lower (s : string) : string :=
  match s with
  | EmptyString => ""
  | String c r => String (lower_ascii c) (lower r)
  end.

(** The writer [Image.save] picks from the extension.  Only the entry of
    the registry the script uses is modelled. *)
Definition EXTENSION (ext : string) : option format :=
  if bool_decide (ext = ".png") then Some PNG else None.

(** The modes the PNG writer accepts ([_OUTMODES] of PngImagePlugin). *)
Definition png_writable (m : mode) : bool :=
  match m with
  | M1 | L | LA | P | RGB | RGBA => true
  | CMYK | YCbCr | F32 => false
  end.

End Pil.

(** ** The process: state and exceptions *)

Module Py.

Import Fs Pil.

Inductive exn :=
  | FileNotFoundError
  | FileExistsError
  | NotADirectoryError
  | IsADirectoryError
  | UnidentifiedImageError
  | OSError_cannot_write_mode
  | ValueError_unknown_extension
  | RecursionError.

#[export] Instance exn_eq_dec : EqDecision exn.
Proof. solve_decision. Defined.

Definition of_errno (e : errno) : exn :=
  match e with
  | ENOENT => FileNotFoundError
  | ENOTDIR => NotADirectoryError
  | EEXIST => FileExistsError
  | EISDIR => IsADirectoryError
  end.

(** The calls that change or hold something outside the process, in the
    order they complete. *)
Inductive event :=
  | Opened (p : string)
  | Closed (p : string)
  | MadeDir (p : string)
  | Saved (p : string) (im : image).

Record world := {
  cwd : key;
  files : gmap key (node content);
  stdout : list string;
  trace : list event
}.

Definition set_files (t : gmap key (node content)) (w : world) : world :=
  {| cwd := cwd w; files := t; stdout := stdout w; trace := trace w |}.

Definition log (e : event) (w : world) : world :=
  {| cwd := cwd w; files := files w; stdout := stdout w;
     trace := trace w ++ [e] |}.

(** A statement: from a world to the world it leaves and either the
    exception it raised or its value. *)
Definition M (A : Type) : Type := world → world * (exn + A).

#[export] Instance M_ret : MRet M := λ A x w, (w, inr x).

#[export] Instance M_bind : MBind M := λ A B f m w,
  match m w with
  | (w', inl e) => (w', inl e)
  | (w', inr x) => f x w'
  end.

Definition raise {A} (e : exn) : M A := λ w, (w, inl e).

(** [try: m except e: pass] *)
Definition except_pass (e : exn) (m : M ()) : M () := λ w,
  match m w with
  | (w', inl e') => if bool_decide (e' = e) then (w', inr ()) else (w', inl e')
  | r => r
  end.

(** [for x in xs: body] *)
Fixpoint for_ {A} (xs : list A) (body : A → M ()) : M () :=
  match xs with
  | [] => mret ()
  | x :: xs' => body x ;; for_ xs' body
  end.

Definition print (line : string) : M () := λ w,
  ({| cwd := cwd w; files := files w; stdout := stdout w ++ [line];
      trace := trace w |}, inr ()).

(** [os.path.exists]: any failure of [stat] is False. *)
Definition path_exists (p : string) : M bool := λ w,
  (w, inr (exists_ (files w) (cwd w) p)).

(** [os.mkdir] *)
Definition mkdir (p : string) : M () := λ w,
  match Fs.mkdir (files w) (cwd w) p with
  | inl e => (w, inl (of_errno e))
  | inr t => (log (MadeDir p) (set_files t w), inr ())
  end.

(** The first lines of [os.makedirs]: [head, tail = path.split(name)],
    split once more when [tail] is empty. *)
Definition head_tail (name : string) : string * string :=
  let '(head, tail) := Posixpath.split name in
  if bool_decide (tail = "") then Posixpath.split head else (head, tail).

(** [os.makedirs(name)] with [exist_ok=False] (os.py).  The recursion
    is on a strictly shorter [head]; [fuel] bounds it. *)
Fixpoint makedirs_rec (fuel : nat) (name : string) : M () :=
  match fuel with
  | O => raise RecursionError
  | S fuel' =>
      let '(head, tail) := head_tail name in
      go ← (if negb (bool_decide (head = "")) && negb (bool_decide (tail = ""))
            then
              e ← path_exists head;
              if negb e then
                except_pass FileExistsError (makedirs_rec fuel' head);;
                mret (negb (bool_decide (tail = ".")))
              else mret true
            else mret true);
      if go : bool then mkdir name else mret ()
  end.

Definition makedirs (name : string) : M () :=
  makedirs_rec (S (String.length name)) name.

(** [Image.open] *)
Definition Image_open (p : string) : M image := λ w,
  match Fs.read (files w) (cwd w) p with
  | inl e => (w, inl (of_errno e))
  | inr (Encoded fmt m size px) => (log (Opened p) w, inr (decode fmt m size px))
  | inr (Blob _) => (w, inl UnidentifiedImageError)
  end.

(** [with Image.open(p) as img: body]: the picture is closed on the way
    out, also when the body raised. *)
Definition with_Image_open {A} (p : string) (body : image → M A) : M A :=
  λ w,
  match Image_open p w with
  | (w1, inl e) => (w1, inl e)
  | (w1, inr img) =>
      let '(w2, r) := body img w1 in (log (Closed p) w2, r)
  end.

(** [Image.save(fp)] with a file name.  The file is opened for writing,
    which truncates it, before the writer looks at the picture; when the
    writer refuses the mode a file that was not there before is removed
    again and one that was stays empty. *)
Definition save (im : image) (fp : string) : M () := λ w,
  match EXTENSION (lower (Posixpath.splitext_ext fp)) with
  | None => (w, inl ValueError_unknown_extension)
  | Some fmt =>
      let created := negb (exists_ (files w) (cwd w) fp) in
      match Fs.write (files w) (cwd w) fp (Blob "") with
      | inl e => (w, inl (of_errno e))
      | inr t0 =>
          if png_writable (im_mode im) then
            match Fs.write t0 (cwd w) fp
                    (Encoded fmt (im_mode im) (im_size im) (im_data im)) with
            | inl e => (set_files t0 w, inl (of_errno e))
            | inr t1 => (log (Saved fp im) (set_files t1 w), inr ())
            end
          else
            (if created then w else set_files t0 w,
             inl OSError_cannot_write_mode)
      end
  end.

End Py.

(** ** The script *)

Module IconResize.

Import Fs Pil Py.

Definition nl : string := String "010"%char "".

Definition original_image_path : string :=
  "/Users/elad/code/playground/Arduino/Android/MorganaSchedualer/images/logo.png".

Definition main_dir : string := Posixpath.dirname original_image_path.

(** A dict keeps the order its entries were written in. *)
Definition icon_sizes : list (string * (Z * Z)) :=
  [ ("mipmap-xxxhdpi", (192, 192));
    ("mipmap-xxhdpi", (144, 144));
    ("mipmap-xhdpi", (96, 96));
    ("mipmap-hdpi", (72, 72));
    ("mipmap-mdpi", (48, 48)) ].

Definition icon_dir (folder_name : string) : string :=
  Posixpath.join main_dir ["../app/src/main/res"; folder_name].

Definition output_filename (folder_name : string) : string :=
  Posixpath.join (icon_dir folder_name) ["ic_launcher.png"].

Definition msg_not_found : string :=
  "שגיאה: הקובץ '" ++ original_image_path ++ "' לא נמצא.".

Definition msg_hint : string :=
  "אנא שמור את הלוגו בתיקייה זו בשם 'morgana_logo.png'.".

Definition msg_processing : string :=
  "מעבד את התמונה: " ++ original_image_path.

Definition msg_created (output_filename : string) (size : Z * Z) : string :=
  "נוצר אייקון: " ++ output_filename ++ " (בגודל " ++ pretty (fst size)
  ++ "x" ++ pretty (snd size) ++ ")".

Definition msg_done : string := nl ++ "הסתיים בהצלחה!".

(** The statements of the loop up to the save: both directories are
    seen to, the picture is resized. *)
Definition prepare (img : image) (folder_name : string) (size : Z * Z)
  : M image :=
  e ← path_exists folder_name;
  (if negb e then makedirs folder_name else mret ());;
  let resized_img := resize img size LANCZOS in
  e ← path_exists (icon_dir folder_name);
  (if negb e then makedirs (icon_dir folder_name) else mret ());;
  mret resized_img.

(** The body of [for folder_name, size in icon_sizes.items()]. *)
Definition body (img : image) (entry : string * (Z * Z)) : M () :=
  let '(folder_name, size) := entry in
  resized_img ← prepare img folder_name size;
  save resized_img (output_filename folder_name);;
  print (msg_created (output_filename folder_name) size).

Definition main : M () :=
  e ← path_exists original_image_path;
  if negb e then
    print msg_not_found;;
    print msg_hint
  else
    with_Image_open original_image_path (λ img,
      print msg_processing;;
      for_ icon_sizes (body img));;
    print msg_done.

End IconResize.

(** ** Vocabulary of the statements *)

Module Spec.

Import Fs Pil Py IconResize.

Definition project_key : key :=
  ["Users"; "elad"; "code"; "playground"; "Arduino"; "Android";
   "MorganaSchedualer"].

Definition images_key : key := project_key ++ ["images"].

(** The entry of the source picture. *)
Definition src_key : key := images_key ++ ["logo.png"].

(** The directories on the way to the source picture. *)
Definition base_dirs : list key :=
  [ ["Users"];
    ["Users"; "elad"];
    ["Users"; "elad"; "code"];
    ["Users"; "elad"; "code"; "playground"];
    ["Users"; "elad"; "code"; "playground"; "Arduino"];
    ["Users"; "elad"; "code"; "playground"; "Arduino"; "Android"];
    project_key;
    images_key ].

Definition res_key : key := project_key ++ ["app"; "src"; "main"; "res"].

(** The directories above the resource directory that a run may have to
    make, and the resource directory itself. *)
Definition res_chain : list key :=
  [ project_key ++ ["app"];
    project_key ++ ["app"; "src"];
    project_key ++ ["app"; "src"; "main"];
    res_key ].

Definition dir_key (label : string) : key := res_key ++ [label].

Definition out_key (label : string) : key :=
  res_key ++ [label; "ic_launcher.png"].

Definition labels : list string := icon_sizes.*1.

(** The entry a label names when it is used as a path of its own. *)
Definition local_key (cwd : key) (label : string) : key := cwd ++ [label].

(** Every entry a run may turn into a directory. *)
Definition dir_keys (cwd : key) (k : key) : Prop :=
  k ∈ res_chain ∨ (∃ l, l ∈ labels ∧ k = dir_key l)
  ∨ (∃ l, l ∈ labels ∧ k = local_key cwd l).

Definition out_keys (k : key) : Prop := ∃ l, l ∈ labels ∧ k = out_key l.

(** The names [os.makedirs] may hand to [os.mkdir]: the name and the
    heads it recurses into. *)
Fixpoint chain (fuel : nat) (name : string) : list string :=
  match fuel with
  | O => []
  | S fuel' =>
      let '(head, tail) := head_tail name in
      name ::
        (if negb (bool_decide (head = "")) && negb (bool_decide (tail = ""))
         then chain fuel' head else [])
  end.

(** The entries [os.makedirs] may make in a tree: those of the names of
    its chain that do not exist yet. *)
Definition makes (fuel : nat) (name : string) (w : world) (k : key) : Prop :=
  ∃ q, q ∈ chain fuel name ∧ k = norm (cwd w) q
       ∧ exists_ (files w) (cwd w) q = false.

Definition nothing (k : key) : Prop := False.

(** A stretch of a run: the working directory stays, the trace grows by
    [tr], the tree changes within [D] and [O]. *)
Definition stretch (D O : key → Prop) (tr : list event) (w w' : world)
  : Prop :=
  cwd w' = cwd w ∧ trace w' = trace w ++ tr
  ∧ changes D O (files w) (files w').

(** Every directory on the way to the source picture is there. *)
Definition base_ok (t : gmap key (node content)) : Prop :=
  Forall (λ k, node_at t k = Some Dir) base_dirs.

(** The path of the resource directory and the heads [os.makedirs]
    finds above it, up to the root. *)
Definition res_dir : string :=
  Posixpath.join main_dir ["../app/src/main/res"].

Definition res_paths : list string :=
  Eval vm_compute in chain (S (String.length res_dir)) res_dir.

(** The file the PNG writer leaves for a picture. *)
Definition png_of (im : image) : content :=
  Encoded PNG (im_mode im) (im_size im) (im_data im).

(** The icon of one entry of the table. *)
Definition icon (img : image) (size : Z * Z) : image :=
  resize img size LANCZOS.

Definition is_made_dir (e : event) : bool :=
  match e with MadeDir _ => true | _ => false end.

(** The pictures a trace saved, with their paths, in order. *)
Definition saves (tr : list event) : list (string * image) :=
  omap (λ e, match e with Saved p im => Some (p, im) | _ => None end) tr.

(** The saves of a full pass over the table. *)
Definition all_saves (img : image) : list (string * image) :=
  (λ e : string * (Z * Z), (output_filename e.1, icon img e.2)) <$> icon_sizes.

(** The events of a trace other than the making of directories. *)
Definition visible (tr : list event) : list event :=
  filter (λ e, is_made_dir e = false) tr.

(** The saves of a pass over the entries [xs], as events. *)
Definition saved_of (img : image) (xs : list (string * (Z * Z)))
  : list event :=
  (λ e, Saved (output_filename e.1) (icon img e.2)) <$> xs.

(** The trace of a pass over the entries [xs]: round after round, the
    directories the round made and then its save. *)
Fixpoint rounds (img : image) (xs : list (string * (Z * Z)))
    (tr : list event) : Prop :=
  match xs with
  | [] => tr = []
  | e :: xs' =>
      ∃ mk rest,
        forallb is_made_dir mk = true
        ∧ tr = mk ++ Saved (output_filename e.1) (icon img e.2) :: rest
        ∧ rounds img xs' rest
  end.

(** The output entries of the entries [xs] of the table. *)
Definition outs (xs : list (string * (Z * Z))) (k : key) : Prop :=
  ∃ l, l ∈ xs.*1 ∧ k = out_key l.

(** An entry of the table is done in a world: both directories are
    found, and the output path leads to the icon. *)
Definition done_entry (img : image) (w : world) (e : string * (Z * Z))
  : Prop :=
  exists_ (files w) (cwd w) e.1 = true
  ∧ exists_ (files w) (cwd w) (icon_dir e.1) = true
  ∧ png_writable (im_mode (icon img e.2)) = true
  ∧ namei (files w) (cwd w) (output_filename e.1)
    = inr (out_key e.1, Some (File (png_of (icon img e.2)))).

(** What a run that gets through the table leaves in the trace. *)
Definition session (img : image) : list event :=
  [Opened original_image_path] ++ saved_of img icon_sizes
  ++ [Closed original_image_path].

(** A statement that prints nothing. *)
Definition keeps_stdout {A} (m : M A) : Prop :=
  ∀ w, stdout (m w).1 = stdout w.

(** The progress lines of the entries [xs]. *)
Definition created_lines (xs : list (string * (Z * Z))) : list string :=
  (λ e, msg_created (output_filename e.1) e.2) <$> xs.

End Spec.

(** ** Worlds to run the script in *)

Module Examples.

Import Fs Pil Py IconResize Spec.

Definition with_dirs (ks : list key) (t : gmap key (node content))
  : gmap key (node content) :=
  foldr (λ k, <[k := Dir]>) t ks.

(** The directories down to [images], and [/tmp] to run from. *)
Definition tree_base : gmap key (node content) :=
  with_dirs (["tmp"] :: base_dirs) ∅.

Definition pixels : raster := Samples [0; 64; 128; 255].

Definition world_of (t : gmap key (node content)) : world :=
  {| cwd := ["tmp"]; files := t; stdout := []; trace := [] |}.

Definition with_source (c : content) : world :=
  world_of (<[src_key := File c]> tree_base).

(** No source picture. *)
Definition w_missing : world := world_of tree_base.

(** A square RGBA logo. *)
Definition w_ok : world := with_source (Encoded PNG RGBA (512, 512) pixels).

(** The same, with a regular file where the [app] directory should be. *)
Definition w_blocked : world :=
  world_of (<[project_key ++ ["app"] := File (Blob "not a directory")]>
              (files w_ok)).

(** A logo with a palette. *)
Definition w_palette : world := with_source (Encoded PNG P (512, 512) pixels).

(** A JPEG picture under the name [logo.png]. *)
Definition w_jpeg : world := with_source (Encoded JPEG RGB (512, 512) pixels).

(** A logo twice as wide as high. *)
Definition w_wide : world := with_source (Encoded PNG RGB (400, 200) pixels).

(** The resource tree of an earlier build, with an old [mdpi] icon. *)
Definition w_old : world :=
  world_of (<[out_key "mipmap-mdpi"
              := File (Encoded PNG RGB (48, 48) (Samples [7]))]>
              (with_dirs (res_chain ++ [dir_key "mipmap-mdpi"])
                         (files w_ok))).

(** The resource tree with a regular file where the directory of the
    third label should be. *)
Definition w_halfway : world :=
  world_of (<[dir_key "mipmap-xhdpi" := File (Blob "")]>
              (with_dirs res_chain (files w_ok))).

(** A CMYK picture, which opens and which the PNG writer refuses. *)
Definition w_cmyk : world := with_source (Encoded JPEG CMYK (512, 512) pixels).

(** Bytes that are no picture under the name of the logo. *)
Definition w_garbage : world := with_source (Blob "not a picture").

(** A directory under the name of the logo. *)
Definition w_source_dir : world := world_of (<[src_key := Dir]> tree_base).

(** The logo is there, the working directory is not. *)
Definition w_no_cwd : world :=
  {| cwd := ["gone"]; files := files w_ok; stdout := []; trace := [] |}.

End Examples.

(** * Properties of the platform model *)

Module FsFacts.

Import Fs.

Section Walk.
Context {content : Type}.
Implicit Types t : gmap key (node content).

Lemma walk_key t cs : ∀ cur k o,
  walk t cur cs = inr (k, o) → k = foldl norm_step cur cs ∧ o = node_at t k.
Proof.
  induction cs as [|c rest IH]; intros cur k o H.
  - by inversion H.
  - destruct rest as [|c' rest'].
    + by inversion H.
    + change (walk t cur (c :: c' :: rest')) with
        (match node_at t (norm_step cur c) with
         | Some Dir => walk t (norm_step cur c) (c' :: rest')
         | Some (File _) => inl ENOTDIR
         | None => inl ENOENT
         end) in H.
      destruct (node_at t (norm_step cur c)) as [[|?]|]; try done.
      by apply IH in H.
Qed.

Lemma namei_key t cwd p k o :
  namei t cwd p = inr (k, o) → k = norm cwd p ∧ o = node_at t k.
Proof.
  unfold namei, norm. case_bool_decide; [done|].
  destruct (node_at t (origin cwd p)) as [[|?]|]; try done.
  apply walk_key.
Qed.

Lemma walk_mono t t' cs : keeps_dirs t t' → ∀ cur k o,
  walk t cur cs = inr (k, o) → walk t' cur cs = inr (k, node_at t' k).
Proof.
  intros Hd. induction cs as [|c rest IH]; intros cur k o H.
  - by inversion H.
  - destruct rest as [|c' rest'].
    + by inversion H.
    + change (walk t cur (c :: c' :: rest')) with
        (match node_at t (norm_step cur c) with
         | Some Dir => walk t (norm_step cur c) (c' :: rest')
         | Some (File _) => inl ENOTDIR
         | None => inl ENOENT
         end) in H.
      change (walk t' cur (c :: c' :: rest')) with
        (match node_at t' (norm_step cur c) with
         | Some Dir => walk t' (norm_step cur c) (c' :: rest')
         | Some (File _) => inl ENOTDIR
         | None => inl ENOENT
         end).
      destruct (node_at t (norm_step cur c)) as [[|?]|] eqn:E; try done.
      rewrite (Hd _ E). by eapply IH.
Qed.

Lemma namei_mono t t' cwd p k o :
  keeps_dirs t t' →
  namei t cwd p = inr (k, o) → namei t' cwd p = inr (k, node_at t' k).
Proof.
  intros Hd. unfold namei. case_bool_decide; [done|].
  destruct (node_at t (origin cwd p)) as [[|?]|] eqn:E; try done.
  rewrite (Hd _ E). by apply walk_mono.
Qed.

Lemma node_at_None t k : node_at t k = None → t !! k = None.
Proof. by destruct k. Qed.

Lemma node_at_insert_ne t k k' n :
  k ≠ k' → k ≠ [] → node_at (<[k := n]> t) k' = node_at t k'.
Proof.
  intros Hne Hk. destruct k' as [|x k']; [done|].
  cbn. by rewrite lookup_insert_ne.
Qed.

Lemma node_at_insert_eq t k n :
  k ≠ [] → node_at (<[k := n]> t) k = Some n.
Proof. intros Hk. destruct k; [done|]. cbn. by rewrite lookup_insert_eq. Qed.

Lemma node_at_lookup t k : k ≠ [] → node_at t k = t !! k.
Proof. by destruct k. Qed.

Lemma exists_true t cwd p :
  exists_ t cwd p = true ↔ ∃ n, namei t cwd p = inr (norm cwd p, Some n).
Proof.
  unfold exists_. split.
  - destruct (namei t cwd p) as [e|[k [n|]]] eqn:E; try done.
    intros _. apply namei_key in E as E'. destruct E' as [-> _]. eauto.
  - intros [n ->]. done.
Qed.

Lemma changes_refl D O t : changes D O t t.
Proof. intros k. by left. Qed.

Lemma changes_trans D O t1 t2 t3 :
  changes D O t1 t2 → changes D O t2 t3 → changes D O t1 t3.
Proof.
  intros H12 H23 k.
  destruct (H12 k) as [E1|[(N1 & E1 & HD)|(HO & N1 & c1 & E1)]],
           (H23 k) as [E2|[(N2 & E2 & HD')|(HO' & N2 & c2 & E2)]];
    try congruence.
  - left. congruence.
  - right; left. rewrite <- E1. done.
  - right; right. split; [done|]. split; [congruence|]. eauto.
  - right; left. split; [done|]. split; [congruence|done].
  - right; right. split; [done|]. split; [done|]. exists c1. congruence.
  - right; right. split; [done|]. split; [done|]. eauto.
Qed.

Lemma changes_weaken (D D' O O' : key → Prop) t t' :
  (∀ k, D k → D' k) → (∀ k, O k → O' k) →
  changes D O t t' → changes D' O' t t'.
Proof.
  intros HD HO H k.
  destruct (H k) as [E|[(N & E & Hk)|(Hk & N & c & E)]]; [by left| |].
  - right; left. auto.
  - right; right. eauto.
Qed.

Lemma changes_keeps_dirs D O t t' : changes D O t t' → keeps_dirs t t'.
Proof.
  intros H [|x k] Hk; [done|]. cbn in *.
  destruct (H (x :: k)) as [E|[(N & E & _)|(_ & N & _)]]; congruence.
Qed.

Lemma changes_keeps_some D O t t' k :
  changes D O t t' → is_Some (node_at t k) → is_Some (node_at t' k).
Proof.
  intros H. destruct k as [|x k]; [done|]. cbn.
  destruct (H (x :: k)) as [E|[(N & E & _)|(_ & N & c & E)]];
    rewrite ?E; done.
Qed.

Lemma changes_keeps_file D O t t' k c :
  changes D O t t' → ¬ O k → t !! k = Some (File c) → t' !! k = Some (File c).
Proof.
  intros H HO Hk.
  destruct (H k) as [E|[(N & _)|(Hk' & _)]]; [congruence|congruence|done].
Qed.

Lemma exists_mono D O t t' cwd p :
  changes D O t t' → exists_ t cwd p = true → exists_ t' cwd p = true.
Proof.
  intros H. rewrite !exists_true. intros [n Hn].
  apply (namei_mono t t') in Hn as Hn'; [|by eapply changes_keeps_dirs].
  apply namei_key in Hn as [_ Hs].
  destruct (changes_keeps_some _ _ _ _ (norm cwd p) H) as [n' E'];
    [by rewrite <- Hs|].
  exists n'. by rewrite Hn', E'.
Qed.

(** [mkdir] makes one directory, at an entry that was free. *)
Lemma mkdir_ok t cwd p t' :
  Fs.mkdir t cwd p = inr t' →
  norm cwd p ≠ [] ∧ t !! norm cwd p = None ∧ t' = <[norm cwd p := Dir]> t
  ∧ namei t cwd p = inr (norm cwd p, None).
Proof.
  unfold Fs.mkdir.
  destruct (namei t cwd p) as [e|[k [n|]]] eqn:E; try done.
  intros [= <-]. apply namei_key in E as [-> Hn].
  symmetry in Hn. split_and!; try done.
  - intros Hk. by rewrite Hk in Hn.
  - by apply node_at_None.
Qed.

(** [write] puts a regular file at an entry that held no directory. *)
Lemma write_ok t cwd p c t' :
  Fs.write t cwd p c = inr t' →
  norm cwd p ≠ [] ∧ t !! norm cwd p ≠ Some Dir
  ∧ t' = <[norm cwd p := File c]> t.
Proof.
  unfold Fs.write.
  destruct (namei t cwd p) as [e|[k o]] eqn:E; try done.
  apply namei_key in E as [-> Hn].
  assert (norm cwd p ≠ [] → t !! norm cwd p = o) as Hl.
  { intros Hk. rewrite Hn. symmetry. by apply node_at_lookup. }
  destruct o as [[|c0]|]; try done; intros [= <-].
  - assert (norm cwd p ≠ []) by (intros Hk; by rewrite Hk in Hn).
    split_and!; try done. rewrite Hl; done.
  - assert (norm cwd p ≠ []) by (intros Hk; by rewrite Hk in Hn).
    split_and!; try done. rewrite Hl; done.
Qed.

(** Writing twice to the same path succeeds the second time as well. *)
Lemma write_again t cwd p c c' t' :
  Fs.write t cwd p c = inr t' →
  Fs.write t' cwd p c' = inr (<[norm cwd p := File c']> t).
Proof.
  intros H. apply write_ok in H as H'. destruct H' as (Hk & Hn & ->).
  unfold Fs.write in *.
  destruct (namei t cwd p) as [e|[k o]] eqn:E; try done.
  apply (namei_mono t (<[norm cwd p := File c]> t)) in E as E'.
  - apply namei_key in E as [-> _]. rewrite E'.
    rewrite node_at_insert_eq by done. by rewrite insert_insert_eq.
  - intros k' Hk'. destruct (decide (norm cwd p = k')) as [<-|Hne].
    + rewrite node_at_lookup in Hk' by done. done.
    + by rewrite node_at_insert_ne.
Qed.

End Walk.

End FsFacts.

Module PosixpathFacts.

Import Posixpath.

Lemma cut_last_sep_length p :
  (String.length (cut_last_sep p).1 + String.length (cut_last_sep p).2
   = String.length p)%nat.
Proof.
  induction p as [|c r IH]; [done|].
  cbn [cut_last_sep]. destruct (cut_last_sep r) as [h t]. cbn in IH.
  destruct h as [|c' h'].
  - destruct (is_sep c); cbn in *; lia.
  - cbn in *. lia.
Qed.

Lemma rstrip_sep_length s :
  (String.length (rstrip_sep s) ≤ String.length s)%nat.
Proof.
  induction s as [|c r IH]; [done|].
  cbn [rstrip_sep]. destruct (rstrip_sep r) as [|c' r'].
  - destruct (is_sep c); cbn in *; lia.
  - cbn in *. lia.
Qed.

Lemma split_length p :
  (String.length (split p).1 + String.length (split p).2
   ≤ String.length p)%nat.
Proof.
  unfold split. pose proof (cut_last_sep_length p) as H.
  destruct (cut_last_sep p) as [h t]. cbn in *.
  pose proof (rstrip_sep_length h).
  destruct (negb (bool_decide (h = "")) && negb (all_sep h)); lia.
Qed.

End PosixpathFacts.

Module PilFacts.

Import Pil.

Lemma resize_size im size f : im_size (resize im size f) = size.
Proof. unfold resize. by case_bool_decide. Qed.

Lemma resize_mode im size f : im_mode (resize im size f) = im_mode im.
Proof. unfold resize. by case_bool_decide. Qed.

(** A picture of another size is resampled from its whole area, with
    NEAREST for the modes "1" and "P" and with the filter asked for
    for the others. *)
Lemma resize_data im size f :
  im_size im ≠ size →
  im_data (resize im size f)
  = Resampled (if bool_decide (im_mode im = M1)
                  || bool_decide (im_mode im = P) then NEAREST else f)
      (0, 0, (im_size im).1, (im_size im).2) (im_data im) size.
Proof. intros H. unfold resize. by rewrite bool_decide_eq_false_2. Qed.

End PilFacts.

Module PyFacts.

Import Fs Pil Py Spec FsFacts PosixpathFacts.

Lemma bind_inv {A B} (m : M A) (f : A → M B) w w' r :
  (m ≫= f) w = (w', r) →
  (∃ e, m w = (w', inl e) ∧ r = inl e)
  ∨ (∃ w1 x, m w = (w1, inr x) ∧ f x w1 = (w', r)).
Proof.
  unfold mbind, M_bind. destruct (m w) as [w1 [e|x]] eqn:E.
  - intros [= <- <-]. left. eauto.
  - intros H. right. eauto.
Qed.

Lemma bind_ok {A B} (m : M A) (f : A → M B) w w1 x :
  m w = (w1, inr x) → (m ≫= f) w = f x w1.
Proof. unfold mbind, M_bind. by intros ->. Qed.

Lemma bind_raise {A B} (m : M A) (f : A → M B) w w1 e :
  m w = (w1, inl e) → (m ≫= f) w = (w1, inl e).
Proof. unfold mbind, M_bind. by intros ->. Qed.

Lemma stretch_refl D O w : stretch D O [] w w.
Proof.
  unfold stretch. rewrite app_nil_r. split_and!; try done.
  apply changes_refl.
Qed.

Lemma stretch_trans D O tr1 tr2 w1 w2 w3 :
  stretch D O tr1 w1 w2 → stretch D O tr2 w2 w3 →
  stretch D O (tr1 ++ tr2) w1 w3.
Proof.
  intros (C1 & T1 & H1) (C2 & T2 & H2).
  unfold stretch. split_and!; try congruence.
  - rewrite T2, T1. by rewrite app_assoc.
  - by eapply changes_trans.
Qed.

Lemma stretch_weaken (D D' O O' : key → Prop) tr w w' :
  (∀ k, D k → D' k) → (∀ k, O k → O' k) →
  stretch D O tr w w' → stretch D' O' tr w w'.
Proof.
  intros HD HO (C & T & H). unfold stretch. split_and!; try done.
  by eapply changes_weaken.
Qed.

Lemma stretch_exists D O tr w w' p :
  stretch D O tr w w' →
  exists_ (files w) (cwd w) p = true → exists_ (files w') (cwd w') p = true.
Proof. intros (C & _ & H). rewrite C. by eapply exists_mono. Qed.

(** [os.mkdir]: on success one directory at a free entry, on failure
    nothing. *)
Lemma mkdir_spec p w w' r :
  mkdir p w = (w', r) →
  match r with
  | inl _ => w' = w
  | inr _ =>
      stretch (λ k, k = norm (cwd w) p
                    ∧ exists_ (files w) (cwd w) p = false)
              nothing [MadeDir p] w w'
      ∧ files w' !! norm (cwd w) p = Some Dir
      ∧ exists_ (files w') (cwd w') p = true
  end.
Proof.
  unfold mkdir. destruct (Fs.mkdir (files w) (cwd w) p) as [e|t] eqn:E.
  - by intros [= <- <-].
  - intros [= <- <-]. apply mkdir_ok in E as (Hk & Hn & -> & Hi).
    assert (changes (λ k, k = norm (cwd w) p
                          ∧ exists_ (files w) (cwd w) p = false)
              nothing (files w) (<[norm (cwd w) p := Dir]> (files w)))
      as Hch.
    { intros k. destruct (decide (norm (cwd w) p = k)) as [<-|Hne].
      + right; left. rewrite lookup_insert_eq. split_and!; try done.
        unfold exists_. by rewrite Hi.
      + left. by rewrite lookup_insert_ne. }
    split_and!; cbn.
    + done.
    + by rewrite lookup_insert_eq.
    + apply exists_true. exists Dir.
      eapply namei_mono in Hi; [|by eapply changes_keeps_dirs].
      rewrite Hi. by rewrite node_at_insert_eq.
Qed.

Lemma chain_head n name head tail :
  head_tail name = (head, tail) → head ≠ "" → tail ≠ "" →
  chain (S n) name = name :: chain n head.
Proof.
  intros E Hh Ht. cbn [chain]. rewrite E.
  rewrite !bool_decide_eq_false_2 by done. done.
Qed.

Lemma chain_self n name : name ∈ chain (S n) name.
Proof. cbn [chain]. destruct (head_tail name). apply list_elem_of_here. Qed.

(** [os.makedirs] only makes directories, at free entries of its
    chain, whatever its outcome. *)
Lemma makedirs_rec_spec n : ∀ name w w' r,
  makedirs_rec n name w = (w', r) →
  ∃ tr, forallb is_made_dir tr = true
        ∧ stretch (makes n name w) nothing tr w w'.
Proof.
  induction n as [|n IH]; intros name w w' r H.
  - cbn in H. injection H as <- <-. exists []. split; [done|].
    apply stretch_refl.
  - cbn [makedirs_rec] in H. destruct (head_tail name) as [head tail] eqn:E.
    assert (∀ w1 tr1, stretch (makes (S n) name w) nothing tr1 w w1 →
              forallb is_made_dir tr1 = true →
              mkdir name w1 = (w', r) →
              ∃ tr, forallb is_made_dir tr = true
                    ∧ stretch (makes (S n) name w) nothing tr w w') as Hlast.
    { intros w1 tr1 S1 F1 Hm. apply mkdir_spec in Hm.
      destruct r as [e|[]].
      - subst w'. eauto.
      - destruct Hm as (S2 & _ & _). exists (tr1 ++ [MadeDir name]). split.
        + rewrite forallb_app, F1. done.
        + eapply stretch_trans; [exact S1|].
          eapply stretch_weaken; [| |exact S2]; [|done].
          intros k [-> Hx]. exists name. split; [apply chain_self|].
          pose proof S1 as (C1 & _). rewrite C1. split; [done|].
          destruct (exists_ (files w) (cwd w) name) eqn:Ex; [|done].
          eapply stretch_exists in Ex; [|exact S1]. congruence. }
    destruct (negb (bool_decide (head = "")) && negb (bool_decide (tail = "")))
      eqn:Hc.
    + apply andb_true_iff in Hc as [Hh Ht].
      apply negb_true_iff, bool_decide_eq_false in Hh, Ht.
      apply bind_inv in H as [(e & H & ->)|(w1 & go & H & H2)].
      * (* the recursion raised something else than FileExistsError *)
        apply bind_inv in H as [(e' & H & _)|(w1 & ex & H & H1)]; [done|].
        injection H as <- <-.
        destruct (exists_ (files w) (cwd w) head); [done|]. cbn in H1.
        apply bind_inv in H1 as [(e' & H1 & _)|(w2 & [] & _ & H1)]; [|done].
        unfold except_pass in H1.
        destruct (makedirs_rec n head w) as [w2 [e2|[]]] eqn:Hr; [|done].
        case_bool_decide; [done|]. injection H1 as <- <-.
        apply IH in Hr as (tr & F & S1). exists tr. split; [done|].
        eapply stretch_weaken; [| |exact S1]; [|done].
        intros k (q & Hq & Hk). exists q. split; [|done].
        rewrite (chain_head n name head tail) by done. by right.
      * apply bind_inv in H as [(e' & H & _)|(w0 & ex & H & H1)]; [done|].
        injection H as <- <-.
        destruct (exists_ (files w) (cwd w) head) eqn:Ex; cbn in H1.
        -- injection H1 as <- <-. cbn in H2.
           eapply (Hlast w []); [apply stretch_refl|done|done].
        -- apply bind_inv in H1 as [(e' & H1 & ?)|(w2 & [] & H1 & H3)];
             [done|].
           injection H3 as <- <-.
           assert (∃ tr, forallb is_made_dir tr = true
                         ∧ stretch (makes (S n) name w) nothing tr w w2)
             as (tr1 & F1 & S1).
           { unfold except_pass in H1.
             destruct (makedirs_rec n head w) as [w3 r3] eqn:Hr.
             apply IH in Hr as (tr & F & S1).
             assert (w3 = w2) as ->.
             { destruct r3 as [e3|[]].
               - destruct (bool_decide (e3 = FileExistsError)); by inversion H1.
               - by inversion H1. }
             exists tr. split; [done|].
             eapply stretch_weaken; [| |exact S1]; [|done].
             intros k (q & Hq & Hk). exists q. split; [|done].
             rewrite (chain_head n name head tail) by done. by right. }
           destruct (negb (bool_decide (tail = "."))).
           ++ by eapply Hlast.
           ++ injection H2 as <- <-. eauto.
    + apply bind_inv in H as [(e & H & ->)|(w1 & go & H & H2)]; [done|].
      injection H as <- <-. cbn in H2.
      eapply (Hlast w []); [apply stretch_refl|done|done].
Qed.

(** The recursion of [os.makedirs] is on a shorter name. *)
Lemma head_tail_shorter name head tail :
  head_tail name = (head, tail) → tail ≠ "" →
  (String.length head < String.length name)%nat.
Proof.
  unfold head_tail. pose proof (split_length name) as H1.
  destruct (Posixpath.split name) as [h t]. cbn in H1.
  case_bool_decide as Ht.
  - intros E Hne. pose proof (split_length h) as H2. rewrite E in H2.
    cbn in H2. destruct tail; [done|]. cbn in H2. lia.
  - intros [= <- <-] _. destruct t; [done|]. cbn in H1. lia.
Qed.

(** With the fuel [makedirs] gives it, the recursion never runs dry. *)
Lemma makedirs_rec_fuel n : ∀ name w,
  (String.length name < n)%nat →
  (makedirs_rec n name w).2 ≠ inl RecursionError.
Proof.
  induction n as [|n IH]; intros name w Hn; [lia|].
  cbn [makedirs_rec]. destruct (head_tail name) as [head tail] eqn:E.
  assert (∀ w1, (mkdir name w1).2 ≠ inl RecursionError) as Hmk.
  { intros w1. unfold mkdir.
    destruct (Fs.mkdir (files w1) (cwd w1) name) as [[]|]; done. }
  destruct (negb (bool_decide (head = "")) && negb (bool_decide (tail = "")))
    eqn:Hc.
  - apply andb_true_iff in Hc as [Hh Ht].
    apply negb_true_iff, bool_decide_eq_false in Hh, Ht.
    pose proof (head_tail_shorter _ _ _ E Ht) as Hlt.
    unfold mbind, M_bind, path_exists.
    destruct (exists_ (files w) (cwd w) head); cbn; [apply Hmk|].
    unfold except_pass.
    pose proof (IH head w ltac:(lia)) as Hr.
    destruct (makedirs_rec n head w) as [w1 [e|[]]]; cbn in *.
    + destruct (bool_decide_reflect (e = FileExistsError)); cbn.
      * destruct (negb (bool_decide (tail = "."))); [apply Hmk|done].
      * congruence.
    + destruct (negb (bool_decide (tail = "."))); [apply Hmk|done].
  - unfold mbind, M_bind; cbn. apply Hmk.
Qed.

Lemma makedirs_no_recursion_error name w :
  (makedirs name w).2 ≠ inl RecursionError.
Proof. apply makedirs_rec_fuel. lia. Qed.

(** When [os.makedirs] returns, the directory is there (the name
    ending in a dot aside, for which it returns early). *)
Lemma makedirs_rec_ok n name w w' :
  makedirs_rec n name w = (w', inr ()) →
  (head_tail name).2 ≠ "." →
  files w' !! norm (cwd w) name = Some Dir
  ∧ exists_ (files w') (cwd w') name = true.
Proof.
  destruct n as [|n]; [done|]. intros H Hdot.
  cbn [makedirs_rec] in H. destruct (head_tail name) as [head tail] eqn:E.
  cbn in Hdot.
  apply bind_inv in H as [(e & H & ?)|(w1 & go & H & H2)]; [done|].
  assert (cwd w1 = cwd w ∧ go = true) as [C ->].
  { destruct (negb (bool_decide (head = ""))
              && negb (bool_decide (tail = ""))).
    - apply bind_inv in H as [(e' & H & ?)|(w0 & ex & H & H1)]; [done|].
      injection H as <- <-.
      destruct (exists_ (files w) (cwd w) head); cbn in H1.
      + by injection H1 as <- <-.
      + apply bind_inv in H1 as [(e' & H1 & ?)|(w2 & [] & H1 & H3)]; [done|].
        injection H3 as <- <-.
        rewrite bool_decide_eq_false_2 by done. split; [|done].
        unfold except_pass in H1.
        destruct (makedirs_rec n head w) as [w3 r3] eqn:Hr.
        apply makedirs_rec_spec in Hr as (tr & _ & C & _).
        destruct r3 as [e3|[]].
        * destruct (bool_decide (e3 = FileExistsError)); inversion H1.
          congruence.
        * inversion H1. congruence.
    - by injection H as <- <-. }
  apply mkdir_spec in H2 as (_ & H2 & H3). by rewrite <- C.
Qed.

(** [Image.open]: the picture the file holds, the world as it was. *)
Lemma Image_open_spec p w w' r :
  Image_open p w = (w', r) →
  match r with
  | inl _ => w' = w
  | inr img =>
      w' = log (Opened p) w
      ∧ ∃ fmt m size px,
          files w !! norm (cwd w) p = Some (File (Encoded fmt m size px))
          ∧ img = decode fmt m size px
  end.
Proof.
  unfold Image_open, read.
  destruct (namei (files w) (cwd w) p) as [e|[k [[|[fmt m size px|b]]|]]] eqn:E;
    intros [= <- <-]; try done.
  split; [done|]. exists fmt, m, size, px. split; [|done].
  apply namei_key in E as [-> Hn].
  rewrite <- node_at_lookup; [done|]. intros Hk. by rewrite Hk in Hn.
Qed.

(** [Image.save] to a [.png] name: on success the entry of the path
    holds the picture as a PNG file; on failure at most that entry
    changed, and it holds no directory. *)
Lemma save_spec im fp w w' r :
  EXTENSION (lower (Posixpath.splitext_ext fp)) = Some PNG →
  save im fp w = (w', r) →
  match r with
  | inl _ => stretch nothing (λ k, k = norm (cwd w) fp) [] w w'
  | inr _ =>
      stretch nothing (λ k, k = norm (cwd w) fp) [Saved fp im] w w'
      ∧ files w' = <[norm (cwd w) fp := File (png_of im)]> (files w)
      ∧ png_writable (im_mode im) = true
      ∧ ∃ o, namei (files w) (cwd w) fp = inr (norm (cwd w) fp, o)
  end.
Proof.
  intros Hext. unfold save. rewrite Hext.
  destruct (Fs.write (files w) (cwd w) fp (Blob "")) as [e|t0] eqn:E0.
  { intros [= <- <-]. apply stretch_refl. }
  pose proof (write_again _ _ _ _ (png_of im) _ E0) as E1.
  assert (∃ o, namei (files w) (cwd w) fp = inr (norm (cwd w) fp, o)) as Hn.
  { unfold Fs.write in E0.
    destruct (namei (files w) (cwd w) fp) as [e|[k o]] eqn:E; [done|].
    apply namei_key in E as [-> _]. eauto. }
  apply write_ok in E0 as (Hk & Hd & ->).
  assert (∀ c, changes nothing (λ k, k = norm (cwd w) fp) (files w)
                 (<[norm (cwd w) fp := File c]> (files w))) as Hch.
  { intros c k. destruct (decide (norm (cwd w) fp = k)) as [<-|Hne].
    - right; right. rewrite lookup_insert_eq. eauto.
    - left. by rewrite lookup_insert_ne. }
  destruct (png_writable (im_mode im)) eqn:Hw.
  - unfold png_of in E1. rewrite E1. intros [= <- <-].
    split_and!; try done. unfold stretch; cbn. split_and!; try done.
  - intros [= <- <-].
    destruct (negb (exists_ (files w) (cwd w) fp)); [apply stretch_refl|].
    unfold stretch; cbn. rewrite app_nil_r. split_and!; try done.
Qed.

(** Saving a picture over the file that already holds it changes
    nothing in the tree. *)
Lemma save_settled im fp w k :
  EXTENSION (lower (Posixpath.splitext_ext fp)) = Some PNG →
  png_writable (im_mode im) = true →
  namei (files w) (cwd w) fp = inr (k, Some (File (png_of im))) →
  ∃ w', save im fp w = (w', inr ())
        ∧ cwd w' = cwd w ∧ files w' = files w.
Proof.
  intros Hext Hw Hn. unfold save. rewrite Hext, Hw.
  assert (Fs.write (files w) (cwd w) fp (Blob "")
          = inr (<[k := File (Blob "")]> (files w))) as E0.
  { unfold Fs.write. by rewrite Hn. }
  rewrite E0.
  pose proof (write_again _ _ _ _ (png_of im) _ E0) as E1.
  unfold png_of in E1. rewrite E1.
  eexists. split; [reflexivity|]. cbn. split; [done|].
  apply namei_key in Hn as [-> Hn]. apply insert_id.
  rewrite <- node_at_lookup; [done|]. intros Hk. by rewrite Hk in Hn.
Qed.

Lemma print_spec line w :
  print line w
  = ({| cwd := cwd w; files := files w; stdout := stdout w ++ [line];
        trace := trace w |}, inr ()).
Proof. done. Qed.


End PyFacts.

(** * The paths of the script *)

Module PathFacts.

Import Fs Pil Py IconResize Spec FsFacts PyFacts.

Lemma labels_eq :
  labels = ["mipmap-xxxhdpi"; "mipmap-xxhdpi"; "mipmap-xhdpi";
            "mipmap-hdpi"; "mipmap-mdpi"].
Proof. reflexivity. Qed.

(** Case analysis on a label of the table. *)
Ltac label_cases H :=
  rewrite labels_eq in H;
  repeat (apply elem_of_cons in H as [->|H]);
  [ .. | by apply elem_of_nil in H ].

Lemma main_dir_eq :
  main_dir
  = "/Users/elad/code/playground/Arduino/Android/MorganaSchedualer/images".
Proof. reflexivity. Qed.

Lemma norm_source cwd : norm cwd original_image_path = src_key.
Proof. reflexivity. Qed.

Lemma norm_label cwd l : l ∈ labels → norm cwd l = local_key cwd l.
Proof. intros H. label_cases H; reflexivity. Qed.

Lemma head_tail_label l : l ∈ labels → head_tail l = ("", l).
Proof. intros H. label_cases H; reflexivity. Qed.

Lemma norm_icon_dir cwd l : l ∈ labels → norm cwd (icon_dir l) = dir_key l.
Proof. intros H. label_cases H; reflexivity. Qed.

Lemma norm_output cwd l :
  l ∈ labels → norm cwd (output_filename l) = out_key l.
Proof. intros H. label_cases H; reflexivity. Qed.

Lemma head_tail_icon_dir l :
  l ∈ labels → head_tail (icon_dir l) = (res_dir, l).
Proof. intros H. label_cases H; reflexivity. Qed.

Lemma label_tail l : l ∈ labels → (head_tail l).2 ≠ ".".
Proof. intros H. label_cases H; done. Qed.

Lemma icon_dir_tail l : l ∈ labels → (head_tail (icon_dir l)).2 ≠ ".".
Proof. intros H. label_cases H; done. Qed.

Lemma extension_output l :
  l ∈ labels →
  EXTENSION (lower (Posixpath.splitext_ext (output_filename l))) = Some PNG.
Proof. intros H. label_cases H; reflexivity. Qed.

Lemma chain_icon_dir l :
  l ∈ labels →
  chain (S (String.length (icon_dir l))) (icon_dir l)
  = icon_dir l :: res_paths.
Proof. intros H. label_cases H; vm_compute; reflexivity. Qed.

Lemma label_not_file_name l : l ∈ labels → l ≠ "ic_launcher.png".
Proof. intros H. label_cases H; done. Qed.

(** Resolution of a path that is known, in a tree that is not: the
    walk is run, and what is left are the lookups it makes. *)
Ltac eval_path t H :=
  cbv -[node_at] in H;
  change (node_at t []) with (@Some (node content) Dir) in H;
  cbv beta iota in H.

Ltac split_path t H :=
  repeat match type of H with
  | context [match node_at t ?k with _ => _ end] =>
      let E := fresh "E" in
      destruct (node_at t k) as [[|?]|] eqn:E; try discriminate H
  end.

Ltac fill_path t H :=
  repeat match type of H with
  | context [match node_at t ?k with _ => _ end] =>
      match goal with E : node_at t k = _ |- _ => rewrite E in H end
  end;
  cbv beta iota in H.

Ltac split_base H :=
  unfold base_ok, base_dirs, images_key, project_key in H; cbn [app] in H;
  repeat (apply Forall_cons in H as [? H]); clear H.

Section Paths.
Implicit Types t : gmap key (node content).

Lemma source_base t cwd :
  exists_ t cwd original_image_path = true →
  base_ok t ∧ is_Some (t !! src_key).
Proof.
  intros H. eval_path t H. split_path t H.
  all: split; [repeat constructor; assumption|eexists; eassumption].
Qed.

Lemma base_namei_source t cwd :
  base_ok t →
  namei t cwd original_image_path = inr (src_key, node_at t src_key).
Proof.
  intros Hb. split_base Hb.
  destruct (namei t cwd original_image_path) as [e|[k o]] eqn:Hn.
  all: eval_path t Hn; fill_path t Hn; try discriminate Hn.
  by injection Hn as <- <-.
Qed.

Lemma base_ok_keeps t t' : keeps_dirs t t' → base_ok t → base_ok t'.
Proof. intros Hk Hb. eapply Forall_impl; [exact Hb|]. intros k. apply Hk. Qed.

(** The heads above the resource directory that are not there are the
    four the script has to make. *)
Lemma res_paths_made t cwd q :
  base_ok t → q ∈ res_paths → exists_ t cwd q = false →
  norm cwd q ∈ res_chain.
Proof.
  intros Hb Hq Hex. split_base Hb. unfold res_paths in Hq.
  repeat (apply elem_of_cons in Hq as [->|Hq]);
    [.. | by apply elem_of_nil in Hq].
  all: try (vm_compute;
            repeat (first [apply list_elem_of_here
                          |apply list_elem_of_further]); fail).
  all: exfalso; eval_path t Hex; fill_path t Hex; discriminate Hex.
Qed.

(** A path to an output file that resolves goes through the
    directory of its label. *)
Lemma output_through_dir t cwd l k o :
  l ∈ labels →
  namei t cwd (output_filename l) = inr (k, o) →
  t !! dir_key l = Some Dir.
Proof.
  intros Hl H. label_cases Hl.
  all: eval_path t H; split_path t H; assumption.
Qed.

Lemma makes_label n l w k :
  l ∈ labels → makes n l w k → dir_keys (cwd w) k.
Proof.
  intros Hl (q & Hq & -> & _). right; right. exists l. split; [done|].
  destruct n as [|n]; [by apply elem_of_nil in Hq|].
  cbn [chain] in Hq. rewrite head_tail_label in Hq by done. cbn in Hq.
  apply list_elem_of_singleton in Hq as ->. by apply norm_label.
Qed.

Lemma makes_icon_dir l w k :
  l ∈ labels → base_ok (files w) →
  makes (S (String.length (icon_dir l))) (icon_dir l) w k →
  dir_keys (cwd w) k.
Proof.
  intros Hl Hb (q & Hq & -> & Hex). rewrite chain_icon_dir in Hq by done.
  apply elem_of_cons in Hq as [->|Hq].
  - right; left. exists l. split; [done|]. by apply norm_icon_dir.
  - left. by eapply res_paths_made.
Qed.

(** The entries of the outputs are apart from every entry that may
    become a directory, and from the source. *)
Lemma out_key_inj l l' : out_key l = out_key l' → l = l'.
Proof. unfold out_key. intros H. by simplify_list_eq. Qed.

Lemma out_key_not_dir cwd l : l ∈ labels → ¬ dir_keys cwd (out_key l).
Proof.
  intros Hl [H|[(l' & Hl' & H)|(l' & Hl' & H)]].
  - unfold res_chain, out_key, res_key, project_key in H. cbn in H.
    repeat (apply elem_of_cons in H as [H|H]; [by simplify_list_eq|]).
    by apply elem_of_nil in H.
  - unfold out_key, dir_key in H. by simplify_list_eq.
  - unfold out_key, local_key in H.
    change (res_key ++ [l; "ic_launcher.png"])
      with (res_key ++ [l] ++ ["ic_launcher.png"]) in H.
    rewrite app_assoc in H. apply app_inj_tail in H as [_ H].
    by eapply label_not_file_name.
Qed.

Lemma src_key_not_dir cwd : ¬ dir_keys cwd src_key.
Proof.
  intros [H|[(l & Hl & H)|(l & Hl & H)]].
  - unfold res_chain, src_key, images_key, res_key, project_key in H.
    cbn in H.
    repeat (apply elem_of_cons in H as [H|H]; [by simplify_list_eq|]).
    by apply elem_of_nil in H.
  - unfold src_key, dir_key in H. done.
  - unfold src_key, local_key in H. apply app_inj_tail in H as [_ H].
    label_cases Hl; discriminate H.
Qed.

Lemma src_key_not_out : ¬ out_keys src_key.
Proof. intros (l & _ & H). unfold src_key, out_key in H. done. Qed.

End Paths.

End PathFacts.

(** * The script, statement by statement *)

Module ScriptFacts.

Import Fs Pil Py IconResize Spec FsFacts PyFacts PathFacts.

Lemma visible_app tr1 tr2 : visible (tr1 ++ tr2) = visible tr1 ++ visible tr2.
Proof. apply filter_app. Qed.

Lemma visible_made tr : forallb is_made_dir tr = true → visible tr = [].
Proof.
  induction tr as [|e tr IH]; [done|]. cbn [forallb].
  intros [He Htr]%andb_true_iff. unfold visible in *.
  rewrite filter_cons_False by (rewrite He; done). auto.
Qed.

(** [if not os.path.exists(p): os.makedirs(p)] *)
Lemma ensure_spec p w w' r :
  (head_tail p).2 ≠ "." →
  (if negb (exists_ (files w) (cwd w) p) then makedirs p else mret ()) w
  = (w', r) →
  ∃ tr, forallb is_made_dir tr = true
        ∧ stretch (makes (S (String.length p)) p w) nothing tr w w'
        ∧ (r = inr () → exists_ (files w') (cwd w') p = true).
Proof.
  intros Hdot. destruct (exists_ (files w) (cwd w) p) eqn:Ex; cbn [negb].
  - intros [= <- <-]. exists []. split_and!; [done|apply stretch_refl|done].
  - unfold makedirs. intros H.
    apply makedirs_rec_spec in H as H'. destruct H' as (tr & F & S1).
    exists tr. split_and!; [done|done|]. intros ->.
    by apply makedirs_rec_ok in H as [_ H].
Qed.

Lemma prepare_spec img l s w w' r :
  l ∈ labels → base_ok (files w) →
  prepare img l s w = (w', r) →
  ∃ tr, forallb is_made_dir tr = true
        ∧ stretch (dir_keys (cwd w)) nothing tr w w'
        ∧ match r with
          | inl _ => True
          | inr im =>
              im = icon img s
              ∧ exists_ (files w') (cwd w') l = true
              ∧ exists_ (files w') (cwd w') (icon_dir l) = true
          end.
Proof.
  intros Hl Hb H. unfold prepare in H.
  apply bind_inv in H as [(e & H & _)|(w0 & e1 & H & H1)]; [done|].
  injection H as <- <-.
  apply bind_inv in H1 as [(e & H1 & ->)|(w1 & [] & H1 & H2)].
  - apply ensure_spec in H1 as (tr & F & S1 & _);
      [|by apply label_tail].
    exists tr. split_and!; [done| |done].
    eapply stretch_weaken; [| |exact S1]; [|done].
    intros k. by apply makes_label.
  - apply ensure_spec in H1 as (tr1 & F1 & S1 & X1);
      [|by apply label_tail].
    assert (stretch (dir_keys (cwd w)) nothing tr1 w w1) as S1'.
    { eapply stretch_weaken; [| |exact S1]; [|done].
      intros k. by apply makes_label. }
    pose proof S1' as (C1 & _ & Ch1).
    assert (base_ok (files w1)) as Hb1.
    { eapply base_ok_keeps; [|done]. by eapply changes_keeps_dirs. }
    apply bind_inv in H2 as [(e & H2 & _)|(w0 & e2 & H2 & H3)]; [done|].
    injection H2 as <- <-.
    pose proof (icon_dir_tail l Hl) as Hdot.
    apply bind_inv in H3 as [(e & H3 & ->)|(w2 & [] & H3 & H4)].
    + apply ensure_spec in H3 as (tr2 & F2 & S2 & _); [|done].
      exists (tr1 ++ tr2). split_and!; [|  |done].
      * by rewrite forallb_app, F1, F2.
      * eapply stretch_trans; [done|].
        eapply stretch_weaken; [| |exact S2]; [|done].
        intros k Hk. rewrite <- C1. by eapply makes_icon_dir.
    + apply ensure_spec in H3 as (tr2 & F2 & S2 & X2); [|done].
      injection H4 as <- <-.
      exists (tr1 ++ tr2). split_and!.
      * by rewrite forallb_app, F1, F2.
      * eapply stretch_trans; [done|].
        eapply stretch_weaken; [| |exact S2]; [|done].
        intros k Hk. rewrite <- C1. by eapply makes_icon_dir.
      * done.
      * eapply stretch_exists; [exact S2|]. by apply X1.
      * by apply X2.
Qed.


(** What is done stays done while other entries are worked on. *)
Lemma done_entry_stretch img D O tr w w' e :
  stretch D O tr w w' → ¬ O (out_key e.1) →
  done_entry img w e → done_entry img w' e.
Proof.
  intros S1 HO (X1 & X2 & Wr & N). pose proof S1 as (C & _ & Ch).
  split_and!; [by eapply stretch_exists|by eapply stretch_exists|done|].
  rewrite C. eapply namei_mono in N as N';
    [|by eapply changes_keeps_dirs].
  rewrite N'. f_equal. f_equal. rewrite node_at_lookup by done.
  eapply changes_keeps_file; [done|done|].
  apply namei_key in N as [_ N]. by rewrite N, node_at_lookup.
Qed.

Lemma done_entry_same img w w' e :
  cwd w' = cwd w → files w' = files w →
  done_entry img w e → done_entry img w' e.
Proof. unfold done_entry. by intros -> ->. Qed.

Lemma rounds_visible img xs : ∀ tr,
  rounds img xs tr → visible tr = saved_of img xs.
Proof.
  induction xs as [|e xs IH]; intros tr H.
  - by rewrite H.
  - destruct H as (mk & rest & F & -> & H).
    rewrite visible_app, visible_made by done.
    change (Saved (output_filename e.1) (icon img e.2) :: rest)
      with ([Saved (output_filename e.1) (icon img e.2)] ++ rest).
    rewrite visible_app, (IH _ H). reflexivity.
Qed.

(** One round of the loop. *)
Lemma body_spec img l s w w' r :
  l ∈ labels → base_ok (files w) →
  body img (l, s) w = (w', r) →
  ∃ mk, forallb is_made_dir mk = true
        ∧ stretch (dir_keys (cwd w)) (λ k, k = out_key l)
            (mk ++ (if r is inr _
                    then [Saved (output_filename l) (icon img s)] else []))
            w w'
        ∧ (r = inr () → done_entry img w' (l, s)).
Proof.
  intros Hl Hb H. unfold body in H.
  apply bind_inv in H as [(e & H & ->)|(w1 & im & H & H1)].
  - apply prepare_spec in H as (tr & F & S1 & _); [|done..].
    exists tr. split_and!; [done| |done]. rewrite app_nil_r.
    eapply stretch_weaken; [| |exact S1]; [done|]. by intros k [].
  - apply prepare_spec in H as (tr1 & F1 & S1 & -> & X1 & X2); [|done..].
    pose proof S1 as (C1 & _ & _).
    assert (stretch (dir_keys (cwd w)) (λ k, k = out_key l) tr1 w w1) as S1'.
    { eapply stretch_weaken; [| |exact S1]; [done|]. by intros k []. }
    apply bind_inv in H1 as [(e & H1 & ->)|(w2 & [] & H1 & H2)].
    + apply save_spec in H1; [|by apply extension_output].
      rewrite norm_output in H1 by done.
      exists tr1. split_and!; [done| |done].
      eapply stretch_trans; [done|].
      eapply stretch_weaken; [| |exact H1]; [by intros k []|done].
    + apply save_spec in H1 as (S2 & Hf & Wr & o & Hn);
        [|by apply extension_output].
      rewrite norm_output in * by done.
      rewrite print_spec in H2. injection H2 as <- <-.
      pose proof S2 as (C2 & T2 & Ch2).
      exists tr1. split_and!.
      * done.
      * eapply stretch_trans; [done|]. unfold stretch; cbn.
        split_and!; [done|done|].
        eapply changes_weaken; [| |exact Ch2]; [by intros k []|done].
      * intros _. unfold done_entry; cbn [cwd files fst snd]. rewrite C2.
        split_and!.
        -- rewrite <- C2. by eapply stretch_exists.
        -- rewrite <- C2. by eapply stretch_exists.
        -- exact Wr.
        -- eapply namei_mono in Hn; [|by eapply changes_keeps_dirs].
           rewrite Hn, Hf. by rewrite node_at_insert_eq.
Qed.

(** The loop over a part [xs] of the table. *)
Lemma for_spec img xs : ∀ w w' r,
  NoDup xs.*1 → (∀ l, l ∈ xs.*1 → l ∈ labels) → base_ok (files w) →
  for_ xs (body img) w = (w', r) →
  ∃ tr, stretch (dir_keys (cwd w)) (outs xs) tr w w'
        ∧ visible tr `prefix_of` saved_of img xs
        ∧ (r = inr () → rounds img xs tr ∧ Forall (done_entry img w') xs).
Proof.
  induction xs as [|[l s] xs IH]; intros w w' r Hnd Hin Hb H.
  - injection H as <- <-. exists []. split_and!; [apply stretch_refl|done|done].
  - cbn [for_] in H. apply NoDup_cons in Hnd as [Hl Hnd].
    assert (l ∈ labels) as Hll by (apply Hin; left).
    apply bind_inv in H as [(e & H & ->)|(w1 & [] & H & H1)].
    + apply body_spec in H as (tr & F & S1 & _); [|done..].
      rewrite app_nil_r in S1.
      exists tr. split_and!; [| |done].
      * eapply stretch_weaken; [| |exact S1]; [done|].
        intros k ->. exists l. split; [left|done].
      * rewrite visible_made by done. apply prefix_nil.
    + apply body_spec in H as (mk & F1 & S1 & D1); [|done..].
      set (tr1 := mk ++ [Saved (output_filename l) (icon img s)]) in *.
      assert (visible tr1 = [Saved (output_filename l) (icon img s)]) as V1.
      { unfold tr1. by rewrite visible_app, visible_made. }
      pose proof S1 as (C1 & _ & Ch1).
      apply IH in H1 as (tr2 & S2 & V2 & D2); [|done| |].
      2:{ intros l' Hl'. apply Hin. by right. }
      2:{ eapply base_ok_keeps; [|done]. by eapply changes_keeps_dirs. }
      rewrite C1 in S2.
      exists (tr1 ++ tr2). split_and!.
      * eapply stretch_trans.
        -- eapply stretch_weaken; [| |exact S1]; [done|].
           intros k ->. exists l. split; [left|done].
        -- eapply stretch_weaken; [| |exact S2]; [done|].
           intros k (l' & Hl' & ->). exists l'. split; [by right|done].
      * rewrite visible_app, V1. cbn [saved_of fmap list_fmap].
        by apply prefix_cons.
      * intros ->. destruct D2 as [R2 D2]; [done|]. split.
        -- exists mk, tr2. split_and!; [done| |done].
           unfold tr1. by rewrite <- app_assoc.
        -- apply Forall_cons. split; [|done].
           eapply done_entry_stretch; [exact S2| |by apply D1].
           intros (l' & Hl' & Heq). apply out_key_inj in Heq. cbn in Heq.
           by subst.
Qed.


Lemma labels_nodup : NoDup labels.
Proof. rewrite labels_eq. compute_done. Qed.

(** The branch for a source that is not there. *)
Lemma main_missing w :
  exists_ (files w) (cwd w) original_image_path = false →
  main w
  = ({| cwd := cwd w; files := files w;
        stdout := stdout w ++ [msg_not_found; msg_hint];
        trace := trace w |}, inr ()).
Proof.
  intros H. unfold main.
  rewrite (bind_ok _ _ w w false) by (unfold path_exists; by rewrite H).
  cbn [negb]. rewrite (bind_ok _ _ w _ ()) by apply print_spec.
  rewrite print_spec. cbn [cwd files stdout trace].
  by rewrite <- app_assoc.
Qed.

(** [with Image.open(p) as img: body], taken apart. *)
Lemma with_inv {A} p (body : image → M A) w w' r :
  with_Image_open p body w = (w', r) →
  (∃ e, Image_open p w = (w', inl e) ∧ r = inl e)
  ∨ (∃ w1 img w2, Image_open p w = (w1, inr img)
                  ∧ body img w1 = (w2, r) ∧ w' = log (Closed p) w2).
Proof.
  unfold with_Image_open. destruct (Image_open p w) as [w0 [e|img]].
  - intros [= <- <-]. left. eauto.
  - destruct (body img w0) as [w2 r2] eqn:Hb. intros [= <- <-].
    right. exists w0, img, w2. eauto.
Qed.

(** The body of the [with] statement, from the opening of the picture
    to its closing. *)
Lemma loop_run img w w3 r :
  base_ok (files w) →
  (print msg_processing;; for_ icon_sizes (body img))
    (log (Opened original_image_path) w) = (w3, r) →
  ∃ tr,
    stretch (dir_keys (cwd w)) out_keys
      ([Opened original_image_path] ++ tr ++ [Closed original_image_path])
      w (log (Closed original_image_path) w3)
    ∧ visible tr `prefix_of` saved_of img icon_sizes
    ∧ (r = inr () →
       rounds img icon_sizes tr
       ∧ Forall (done_entry img w3) icon_sizes).
Proof.
  intros Hb Hl.
  apply bind_inv in Hl as [(e & Hl & _)|(w0 & [] & Hl & Hl')]; [done|].
  rewrite print_spec in Hl. injection Hl as <-.
  apply for_spec in Hl' as (tr & S1 & V & D1);
    [|apply labels_nodup|done|exact Hb].
  destruct S1 as (C1 & T1 & Ch1).
  unfold log in C1, T1, Ch1; cbn [cwd files trace] in C1, T1, Ch1.
  exists tr. split; [|split; [exact V|exact D1]].
  unfold stretch, log; cbn [cwd files trace]. split_and!.
  - exact C1.
  - rewrite T1. by rewrite <- !app_assoc.
  - exact Ch1.
Qed.

Lemma stretch_same D O tr w w' w'' :
  cwd w'' = cwd w' → files w'' = files w' → trace w'' = trace w' →
  stretch D O tr w w' → stretch D O tr w w''.
Proof. unfold stretch. by intros -> -> ->. Qed.

Lemma main_unfold w :
  exists_ (files w) (cwd w) original_image_path = true →
  main w
  = (with_Image_open original_image_path
       (λ img, print msg_processing;; for_ icon_sizes (body img));;
     print msg_done) w.
Proof.
  intros Hex. unfold main.
  rewrite (bind_ok _ _ w w true) by (unfold path_exists; by rewrite Hex).
  reflexivity.
Qed.

(** The branch for a source that is there: either it does not open, and
    nothing has happened, or the loop ran on the picture it holds. *)
Lemma main_present w w' r :
  exists_ (files w) (cwd w) original_image_path = true →
  main w = (w', r) →
  (∃ e, r = inl e ∧ w' = w
        ∧ Image_open original_image_path w = (w, inl e))
  ∨ (∃ fmt m size px tr,
       let img := decode fmt m size px in
       files w !! src_key = Some (File (Encoded fmt m size px))
       ∧ Image_open original_image_path w
         = (log (Opened original_image_path) w, inr img)
       ∧ stretch (dir_keys (cwd w)) out_keys
           ([Opened original_image_path] ++ tr
            ++ [Closed original_image_path]) w w'
       ∧ visible tr `prefix_of` saved_of img icon_sizes
       ∧ (r = inr () →
          rounds img icon_sizes tr
          ∧ Forall (done_entry img w') icon_sizes)).
Proof.
  intros Hex H. rewrite main_unfold in H by exact Hex.
  apply source_base in Hex as [Hb _].
  apply bind_inv in H as [(e & H & ->)|(w2 & [] & H & H2)].
  - apply with_inv in H as [(e' & Ho & [= <-])|(w1 & img & w3 & Ho & Hl & ->)].
    + apply Image_open_spec in Ho as Ho'. subst w'.
      left. exists e. split; [reflexivity|]. split; [reflexivity|exact Ho].
    + apply Image_open_spec in Ho as Ho'.
      destruct Ho' as (-> & fmt & m & size & px & Hs & ->).
      rewrite norm_source in Hs.
      apply loop_run in Hl as (tr & S1 & V & _); [|exact Hb].
      right. exists fmt, m, size, px, tr. cbv zeta.
      split; [exact Hs|]. split; [exact Ho|]. split; [exact S1|].
      split; [exact V|]. intros [=].
  - apply with_inv in H as [(e' & _ & [=])|(w1 & img & w3 & Ho & Hl & ->)].
    apply Image_open_spec in Ho as Ho'.
    destruct Ho' as (-> & fmt & m & size & px & Hs & ->).
    rewrite norm_source in Hs.
    apply loop_run in Hl as (tr & S1 & V & D1); [|exact Hb].
    rewrite print_spec in H2. injection H2 as <- <-.
    right. exists fmt, m, size, px, tr. cbv zeta.
    split; [exact Hs|]. split; [exact Ho|].
    split; [eapply stretch_same; [..|exact S1]; reflexivity|].
    split; [exact V|]. intros _. destruct D1 as [V' D1]; [done|].
    split; [exact V'|].
    eapply Forall_impl; [exact D1|]. intros e.
    apply done_entry_same; reflexivity.
Qed.


Lemma saves_app tr1 tr2 : saves (tr1 ++ tr2) = saves tr1 ++ saves tr2.
Proof. apply omap_app. Qed.

Lemma saves_visible tr : saves (visible tr) = saves tr.
Proof.
  induction tr as [|e tr IH]; [done|]. unfold visible in *.
  destruct e.
  1,2,4: rewrite filter_cons_True by done;
    cbn [saves omap list_omap]; first [exact IH | f_equal; exact IH].
  rewrite filter_cons_False by done. exact IH.
Qed.

Lemma saves_saved_of img xs :
  saves (saved_of img xs)
  = (λ e : string * (Z * Z), (output_filename e.1, icon img e.2)) <$> xs.
Proof.
  induction xs as [|e xs IH]; [done|].
  cbn [saved_of fmap list_fmap saves omap list_omap]. f_equal. exact IH.
Qed.

Lemma saves_session img : saves (session img) = all_saves img.
Proof.
  unfold session. rewrite !saves_app, saves_saved_of.
  change (saves [Opened original_image_path]) with (@nil (string * image)).
  change (saves [Closed original_image_path]) with (@nil (string * image)).
  by rewrite app_nil_r.
Qed.

Lemma done_entry_file img w l s :
  done_entry img w (l, s) →
  files w !! out_key l = Some (File (png_of (icon img s))).
Proof.
  intros (_ & _ & _ & Hn). apply namei_key in Hn as [_ Hn].
  cbn [fst snd] in Hn. by rewrite Hn, node_at_lookup.
Qed.

(** A run that found the source and came to its end. *)
Lemma main_completed w w' :
  exists_ (files w) (cwd w) original_image_path = true →
  main w = (w', inr ()) →
  ∃ fmt m size px,
    files w !! src_key = Some (File (Encoded fmt m size px))
    ∧ Image_open original_image_path w
      = (log (Opened original_image_path) w, inr (decode fmt m size px))
    ∧ cwd w' = cwd w
    ∧ visible (trace w')
      = visible (trace w) ++ session (decode fmt m size px)
    ∧ changes (dir_keys (cwd w)) out_keys (files w) (files w')
    ∧ Forall (done_entry (decode fmt m size px) w') icon_sizes.
Proof.
  intros Hex H.
  apply main_present in H as [(e & [=] & _)|(fmt & m & size & px & tr & Hr)];
    [|exact Hex].
  cbv zeta in Hr. destruct Hr as (Hs & Ho & (C & T & Ch) & _ & D).
  destruct D as [R D]; [done|]. apply rounds_visible in R as V.
  exists fmt, m, size, px. split; [exact Hs|]. split; [exact Ho|].
  split; [exact C|]. split; [|split; [exact Ch|exact D]].
  rewrite T, !visible_app, V. reflexivity.
Qed.

(** Whatever the outcome, a run changes the tree only by making
    directories of the resource tree or named after a label, and by
    writing output files. *)
Lemma main_changes w :
  cwd (main w).1 = cwd w
  ∧ changes (dir_keys (cwd w)) out_keys (files w) (files (main w).1).
Proof.
  destruct (exists_ (files w) (cwd w) original_image_path) eqn:Hex.
  - destruct (main w) as [w' r] eqn:H.
    apply main_present in H as [(e & _ & -> & _)|(fmt & m & size & px & tr & Hr)];
      [|cbv zeta in Hr|exact Hex].
    + split; [reflexivity|apply changes_refl].
    + destruct Hr as (_ & _ & (C & _ & Ch) & _). split; [exact C|exact Ch].
  - rewrite main_missing by exact Hex. split; [reflexivity|apply changes_refl].
Qed.

(** Every picture a run saves, whatever its outcome, goes to the
    output path of an entry of the table. *)
Lemma main_saves_located w p im :
  (p, im) ∈ saves (trace (main w).1) →
  (p, im) ∈ saves (trace w)
  ∨ ∃ l, l ∈ labels ∧ p = output_filename l.
Proof.
  destruct (exists_ (files w) (cwd w) original_image_path) eqn:Hex.
  - destruct (main w) as [w' r] eqn:H. cbn [fst].
    apply main_present in H
      as [(e & _ & -> & _)|(fmt & m & size & px & tr & Hr)];
      [by left|cbv zeta in Hr|exact Hex].
    destruct Hr as (_ & _ & (_ & T & _) & [k V] & _).
    rewrite T, !saves_app. rewrite !elem_of_app.
    intros [Hin|[Hin|[Hin|Hin]]]; [by left| | |].
    + by apply elem_of_nil in Hin.
    + right. rewrite <- saves_visible in Hin.
      assert ((p, im) ∈ saves (saved_of (decode fmt m size px) icon_sizes))
        as Hin'.
      { rewrite V, saves_app. apply elem_of_app. by left. }
      rewrite saves_saved_of in Hin'.
      apply list_elem_of_fmap in Hin' as ([l sz] & [= -> _] & Hl).
      exists l. split; [|done]. apply list_elem_of_fmap. by exists (l, sz).
    + by apply elem_of_nil in Hin.
  - rewrite main_missing by exact Hex. by left.
Qed.

(** ** A second run *)

Lemma body_settled img l s w :
  l ∈ labels → done_entry img w (l, s) →
  ∃ w', body img (l, s) w = (w', inr ())
        ∧ cwd w' = cwd w ∧ files w' = files w.
Proof.
  intros Hl (X1 & X2 & Wr & Hn). cbn [fst snd] in *.
  destruct (save_settled (icon img s) (output_filename l) w (out_key l))
    as (w1 & Hs & C1 & F1); [by apply extension_output|done|done|].
  exists {| cwd := cwd w1; files := files w1;
            stdout := stdout w1 ++ [msg_created (output_filename l) s];
            trace := trace w1 |}.
  split; [|done]. unfold body.
  assert (prepare img l s w = (w, inr (icon img s))) as Hp.
  { unfold prepare.
    rewrite (bind_ok _ _ w w true) by (unfold path_exists; by rewrite X1).
    cbn [negb]. rewrite (bind_ok _ _ w w ()) by done.
    rewrite (bind_ok _ _ w w true) by (unfold path_exists; by rewrite X2).
    cbn [negb]. by rewrite (bind_ok _ _ w w ()). }
  rewrite (bind_ok _ _ _ _ _ Hp). rewrite (bind_ok _ _ _ _ _ Hs).
  apply print_spec.
Qed.

Lemma for_settled img xs : ∀ w,
  (∀ l, l ∈ xs.*1 → l ∈ labels) → Forall (done_entry img w) xs →
  ∃ w', for_ xs (body img) w = (w', inr ())
        ∧ cwd w' = cwd w ∧ files w' = files w.
Proof.
  induction xs as [|[l s] xs IH]; intros w Hin Hd.
  - exists w. done.
  - apply Forall_cons in Hd as [Hd Hds].
    destruct (body_settled img l s w) as (w1 & Hb & C1 & F1);
      [apply Hin; left|done|].
    destruct (IH w1) as (w2 & Hf & C2 & F2).
    { intros l' Hl'. apply Hin. by right. }
    { eapply Forall_impl; [exact Hds|]. intros e.
      by apply done_entry_same. }
    exists w2. cbn [for_]. rewrite (bind_ok _ _ _ _ _ Hb).
    split; [exact Hf|]. split; congruence.
Qed.

Lemma with_ok {A} p (body : image → M A) w w1 img w2 r :
  Image_open p w = (w1, inr img) → body img w1 = (w2, r) →
  with_Image_open p body w = (log (Closed p) w2, r).
Proof. unfold with_Image_open. by intros -> ->. Qed.

Lemma Image_open_found p w k fmt m size px :
  namei (files w) (cwd w) p = inr (k, Some (File (Encoded fmt m size px))) →
  Image_open p w = (log (Opened p) w, inr (decode fmt m size px)).
Proof. unfold Image_open, read. by intros ->. Qed.

(** In a world where every entry of the table is done, a run goes
    through and leaves the tree as it is. *)
Lemma main_settled w fmt m size px :
  exists_ (files w) (cwd w) original_image_path = true →
  files w !! src_key = Some (File (Encoded fmt m size px)) →
  Forall (done_entry (decode fmt m size px) w) icon_sizes →
  ∃ w2, main w = (w2, inr ()) ∧ cwd w2 = cwd w ∧ files w2 = files w.
Proof.
  intros Hex Hs Hd. rewrite main_unfold by exact Hex.
  apply source_base in Hex as [Hb _].
  pose proof (base_namei_source (files w) (cwd w) Hb) as Hn.
  assert (node_at (files w) src_key
          = Some (File (Encoded fmt m size px))) as Hs' by exact Hs.
  rewrite Hs' in Hn. apply Image_open_found in Hn.
  destruct (for_settled (decode fmt m size px) icon_sizes
              {| cwd := cwd w; files := files w;
                 stdout := stdout (log (Opened original_image_path) w)
                           ++ [msg_processing];
                 trace := trace (log (Opened original_image_path) w) |})
    as (w3 & Hf & C3 & F3); [done|exact Hd|].
  cbn [cwd files] in C3, F3.
  assert ((print msg_processing;;
           for_ icon_sizes (body (decode fmt m size px)))
            (log (Opened original_image_path) w) = (w3, inr ())) as Hbody.
  { rewrite (bind_ok _ _ _ _ ()
               (print_spec msg_processing
                  (log (Opened original_image_path) w))).
    exact Hf. }
  pose proof (with_ok original_image_path
                (λ img, print msg_processing;; for_ icon_sizes (body img))
                _ _ _ _ _ Hn Hbody) as Hw.
  rewrite (bind_ok _ _ _ _ _ Hw). rewrite print_spec.
  eexists. split; [reflexivity|]. cbn [cwd files log]. by split.
Qed.

End ScriptFacts.

(** * What the script prints, and runs that fail *)

Module RunFacts.

Import Fs Pil Py IconResize Spec FsFacts PilFacts PyFacts PathFacts ScriptFacts.

Lemma ks_ret {A} (x : A) : keeps_stdout (mret x).
Proof. by intros w. Qed.

Lemma ks_raise {A} e : keeps_stdout (raise (A:=A) e).
Proof. by intros w. Qed.

Lemma ks_bind {A B} (m : M A) (f : A → M B) :
  keeps_stdout m → (∀ x, keeps_stdout (f x)) → keeps_stdout (m ≫= f).
Proof.
  intros Hm Hf w. unfold mbind, M_bind. specialize (Hm w).
  destruct (m w) as [w1 [e|x]]; [exact Hm|].
  cbn in Hm. rewrite <- Hm. apply Hf.
Qed.

Lemma ks_except_pass e m : keeps_stdout m → keeps_stdout (except_pass e m).
Proof.
  intros Hm w. unfold except_pass. specialize (Hm w).
  destruct (m w) as [w1 [e'|[]]]; [|exact Hm].
  by destruct (bool_decide (e' = e)).
Qed.

Lemma ks_path_exists p : keeps_stdout (path_exists p).
Proof. by intros w. Qed.

Lemma ks_mkdir p : keeps_stdout (mkdir p).
Proof.
  intros w. unfold mkdir. by destruct (Fs.mkdir (files w) (cwd w) p).
Qed.

Lemma ks_makedirs_rec n : ∀ name, keeps_stdout (makedirs_rec n name).
Proof.
  induction n as [|n IH]; intros name; [apply ks_raise|].
  cbn [makedirs_rec]. destruct (head_tail name) as [head tail].
  apply ks_bind.
  - destruct (negb (bool_decide (head = ""))
              && negb (bool_decide (tail = ""))); [|apply ks_ret].
    apply ks_bind; [apply ks_path_exists|]. intros [|]; cbn [negb].
    + apply ks_ret.
    + apply ks_bind; [by apply ks_except_pass|]. intros _. apply ks_ret.
  - intros [|]; [apply ks_mkdir|apply ks_ret].
Qed.

Lemma ks_save im fp : keeps_stdout (save im fp).
Proof.
  intros w. unfold save.
  destruct (EXTENSION _); [|done].
  destruct (Fs.write (files w) (cwd w) fp (Blob "")) as [e|t0]; [done|].
  destruct (png_writable (im_mode im)).
  - by destruct (Fs.write t0 (cwd w) fp _).
  - by destruct (negb (exists_ (files w) (cwd w) fp)).
Qed.

Lemma ks_prepare img l s : keeps_stdout (prepare img l s).
Proof.
  unfold prepare. apply ks_bind; [apply ks_path_exists|]. intros e1.
  apply ks_bind.
  { destruct (negb e1); [apply ks_makedirs_rec|apply ks_ret]. }
  intros _. apply ks_bind; [apply ks_path_exists|]. intros e2.
  apply ks_bind.
  { destruct (negb e2); [apply ks_makedirs_rec|apply ks_ret]. }
  intros _. apply ks_ret.
Qed.

(** A round of the loop prints its line when, and only when, its file
    was saved. *)
Lemma body_stdout img l s w w' r :
  body img (l, s) w = (w', r) →
  stdout w'
  = stdout w ++ (if r is inr _ then [msg_created (output_filename l) s]
                 else []).
Proof.
  intros H. unfold body in H.
  apply bind_inv in H as [(e & H & ->)|(w1 & im & H & H1)].
  - pose proof (ks_prepare img l s w) as K. rewrite H in K. cbn in K.
    by rewrite app_nil_r.
  - pose proof (ks_prepare img l s w) as K. rewrite H in K. cbn in K.
    apply bind_inv in H1 as [(e & H1 & ->)|(w2 & [] & H1 & H2)].
    + pose proof (ks_save im (output_filename l) w1) as K1.
      rewrite H1 in K1. cbn in K1. rewrite app_nil_r. congruence.
    + pose proof (ks_save im (output_filename l) w1) as K1.
      rewrite H1 in K1. cbn in K1.
      rewrite print_spec in H2. injection H2 as <- <-. cbn. congruence.
Qed.

(** The loop, as far as it gets: [j] rounds were completed. *)
Lemma for_partial img xs : ∀ w w' r,
  NoDup xs.*1 → (∀ l, l ∈ xs.*1 → l ∈ labels) → base_ok (files w) →
  for_ xs (body img) w = (w', r) →
  ∃ j tr,
    trace w' = trace w ++ tr
    ∧ visible tr = saved_of img (take j xs)
    ∧ stdout w' = stdout w ++ created_lines (take j xs)
    ∧ Forall (done_entry img w') (take j xs)
    ∧ (j ≤ List.length xs)%nat
    ∧ (r = inr () ↔ j = List.length xs).
Proof.
  induction xs as [|[l s] xs IH]; intros w w' r Hnd Hin Hb H.
  - injection H as <- <-. exists 0%nat, [].
    rewrite !app_nil_r. by split_and!.
  - cbn [for_] in H. apply NoDup_cons in Hnd as [Hl Hnd].
    assert (l ∈ labels) as Hll by (apply Hin; left).
    apply bind_inv in H as [(e & H & ->)|(w1 & [] & H & H1)].
    + apply body_stdout in H as Hout.
      apply body_spec in H as (mk & F & (_ & T & _) & _); [|done..].
      exists 0%nat, mk. rewrite app_nil_r in T.
      split_and!; [exact T|by apply visible_made|exact Hout|done|cbn; lia|].
      split; [done|]. cbn. lia.
    + apply body_stdout in H as Hout.
      apply body_spec in H as (mk & F & S1 & D1); [|done..].
      pose proof S1 as (C1 & T1 & Ch1).
      assert (base_ok (files w1)) as Hb1.
      { eapply base_ok_keeps; [|done]. by eapply changes_keeps_dirs. }
      assert (∀ l', l' ∈ xs.*1 → l' ∈ labels) as Hin'.
      { intros l' Hl'. apply Hin. by right. }
      pose proof (for_spec img xs w1 w' r Hnd Hin' Hb1 H1) as (tr' & S2 & _).
      destruct (IH w1 w' r Hnd Hin' Hb1 H1)
        as (j & tr2 & T2 & V2 & O2 & D2 & Hj & Hr).
      exists (S j), ((mk ++ [Saved (output_filename l) (icon img s)]) ++ tr2).
      cbn [take]. split_and!.
      * rewrite T2, T1. by rewrite <- !app_assoc.
      * rewrite !visible_app, V2, visible_made by done. reflexivity.
      * rewrite O2, Hout. by rewrite <- app_assoc.
      * apply Forall_cons. split; [|exact D2].
        eapply done_entry_stretch; [exact S2| |by apply D1].
        intros (l' & Hl' & Heq). apply out_key_inj in Heq. cbn in Heq.
        by subst.
      * cbn. lia.
      * rewrite Hr. cbn. lia.
Qed.

Lemma with_raise {A} p (body : image → M A) w w1 e :
  Image_open p w = (w1, inl e) → with_Image_open p body w = (w1, inl e).
Proof. unfold with_Image_open. by intros ->. Qed.

(** A source that is there and does not open: the exception of
    [Image.open] leaves the script, nothing else has happened. *)
Lemma main_open_fails w e :
  exists_ (files w) (cwd w) original_image_path = true →
  Image_open original_image_path w = (w, inl e) →
  main w = (w, inl e).
Proof.
  intros Hex Ho. rewrite main_unfold by exact Hex.
  apply bind_raise. by apply with_raise.
Qed.

(** The body of the [with] statement, as far as it gets. *)
Lemma loop_partial img w w3 r :
  base_ok (files w) →
  (print msg_processing;; for_ icon_sizes (body img))
    (log (Opened original_image_path) w) = (w3, r) →
  ∃ j,
    (j ≤ List.length icon_sizes)%nat
    ∧ saves (trace w3) = saves (trace w) ++ take j (all_saves img)
    ∧ stdout w3
      = stdout w ++ [msg_processing] ++ created_lines (take j icon_sizes)
    ∧ Forall (done_entry img w3) (take j icon_sizes)
    ∧ (r = inr () ↔ j = List.length icon_sizes).
Proof.
  intros Hb Hl.
  apply bind_inv in Hl as [(e & Hl & _)|(w0 & [] & Hl & Hl')]; [done|].
  rewrite print_spec in Hl. injection Hl as <-.
  apply for_partial in Hl' as (j & tr & T & V & O & D & Hj & Hr);
    [|apply labels_nodup|done|exact Hb].
  unfold log in T, O; cbn [cwd files trace stdout] in T, O.
  exists j. split; [exact Hj|]. split; [|split; [|split; [exact D|exact Hr]]].
  - rewrite T, !saves_app.
    change (saves [Opened original_image_path]) with (@nil (string * image)).
    rewrite app_nil_r. f_equal.
    rewrite <- saves_visible, V, saves_saved_of. unfold all_saves.
    by rewrite fmap_take.
  - rewrite O. by rewrite <- app_assoc.
Qed.

(** A run that finds the source, whatever its outcome: either the
    picture did not open and nothing happened, or [j] rounds of the loop
    were completed. *)
Lemma main_partial w w' r :
  exists_ (files w) (cwd w) original_image_path = true →
  main w = (w', r) →
  (∃ e, r = inl e ∧ w' = w
        ∧ Image_open original_image_path w = (w, inl e))
  ∨ ∃ fmt m size px j,
      files w !! src_key = Some (File (Encoded fmt m size px))
      ∧ (j ≤ List.length icon_sizes)%nat
      ∧ saves (trace w')
        = saves (trace w) ++ take j (all_saves (decode fmt m size px))
      ∧ stdout w'
        = stdout w ++ [msg_processing]
          ++ created_lines (take j icon_sizes)
          ++ (if r is inr _ then [msg_done] else [])
      ∧ Forall (done_entry (decode fmt m size px) w') (take j icon_sizes)
      ∧ (r = inr () ↔ j = List.length icon_sizes).
Proof.
  intros Hex H. rewrite main_unfold in H by exact Hex.
  apply source_base in Hex as [Hb _].
  assert (∀ w3, saves (trace (log (Closed original_image_path) w3))
                = saves (trace w3)) as Hclosed.
  { intros w3. unfold log; cbn [trace]. rewrite saves_app.
    change (saves [Closed original_image_path]) with (@nil (string * image)).
    by rewrite app_nil_r. }
  apply bind_inv in H as [(e & H & ->)|(w2 & [] & H & H2)].
  - apply with_inv in H as [(e' & Ho & [= <-])|(w1 & img & w3 & Ho & Hl & ->)].
    + apply Image_open_spec in Ho as Ho'. subst w'.
      left. exists e. split; [reflexivity|]. split; [reflexivity|exact Ho].
    + apply Image_open_spec in Ho as Ho'.
      destruct Ho' as (-> & fmt & m & size & px & Hs & ->).
      rewrite norm_source in Hs.
      apply loop_partial in Hl as (j & Hj & Sv & O & D & Hr); [|exact Hb].
      right. exists fmt, m, size, px, j.
      split; [exact Hs|]. split; [exact Hj|].
      split; [rewrite <- Sv; exact (Hclosed w3)|].
      split; [|split; [|exact Hr]].
      * unfold log; cbn [stdout]. rewrite O. by rewrite app_nil_r.
      * eapply Forall_impl; [exact D|]. intros x.
        apply done_entry_same; reflexivity.
  - apply with_inv in H as [(e' & _ & [=])|(w1 & img & w3 & Ho & Hl & ->)].
    apply Image_open_spec in Ho as Ho'.
    destruct Ho' as (-> & fmt & m & size & px & Hs & ->).
    rewrite norm_source in Hs.
    apply loop_partial in Hl as (j & Hj & Sv & O & D & Hr); [|exact Hb].
    rewrite print_spec in H2. injection H2 as <- <-.
    right. exists fmt, m, size, px, j.
    split; [exact Hs|]. split; [exact Hj|].
    split; [rewrite <- Sv; exact (Hclosed w3)|].
    split; [|split; [|exact Hr]].
    + cbn [stdout log]. rewrite O. by rewrite <- !app_assoc.
    + eapply Forall_impl; [exact D|]. intros x.
      apply done_entry_same; reflexivity.
Qed.

(** ** The directory of a label, made before the save *)

Lemma makes_label_key n l w k :
  l ∈ labels → makes n l w k → k = local_key (cwd w) l.
Proof.
  intros Hl (q & Hq & -> & _).
  destruct n as [|n]; [by apply elem_of_nil in Hq|].
  cbn [chain] in Hq. rewrite head_tail_label in Hq by done. cbn in Hq.
  apply list_elem_of_singleton in Hq as ->. by apply norm_label.
Qed.

(** A tree that only gained the directory a label names in the working
    directory has the directories it had, at every entry whose last name
    is not the label. *)
Lemma grown_back (t ta : gmap key (node content)) cwd l k :
  changes (λ k, k = local_key cwd l) nothing t ta →
  last k ≠ Some l →
  node_at ta k = Some Dir → node_at t k = Some Dir.
Proof.
  intros Hch Hlast Hk. destruct k as [|x k]; [done|].
  cbn [node_at] in *.
  destruct (Hch (x :: k)) as [E|[(_ & _ & Heq)|([] & _)]]; [congruence|].
  exfalso. apply Hlast. rewrite Heq. unfold local_key. apply last_snoc.
Qed.

Ltac grown_case t ta cwd Hch Hex Hn :=
  eval_path ta Hn; split_path ta Hn; injection Hn as Hn;
  repeat match goal with
         | E : node_at ta ?k = Some Dir |- _ =>
             apply (grown_back t ta cwd _ k Hch) in E; [|cbn; discriminate]
         end;
  eval_path t Hex; fill_path t Hex;
  match type of Hex with
  | context [match node_at t ?k with _ => _ end] =>
      let Ed := fresh "Ed" in
      let E := fresh "E" in
      destruct (node_at t k) as [?|] eqn:Ed; [discriminate Hex|];
      destruct (Hch k) as [E|[(_ & E & _)|([] & _)]];
      cbn [node_at] in Hn, Ed; congruence
  end.

(** When the directory of a label is not found and making the label in
    the working directory makes it found, it is a directory. *)
Lemma icon_dir_grown (t ta : gmap key (node content)) cwd l n :
  l ∈ labels →
  changes (λ k, k = local_key cwd l) nothing t ta →
  exists_ t cwd (icon_dir l) = false →
  namei ta cwd (icon_dir l) = inr (dir_key l, Some n) →
  n = Dir.
Proof.
  intros Hl Hch Hex Hn. label_cases Hl.
  all: grown_case t ta cwd Hch Hex Hn.
Qed.

(** The statements of a round before the save make the directory of the
    label when it is not found. *)
Lemma prepare_makes_dir img l s w w1 im :
  l ∈ labels →
  prepare img l s w = (w1, inr im) →
  exists_ (files w) (cwd w) (icon_dir l) = false →
  files w1 !! dir_key l = Some Dir
  ∧ exists_ (files w1) (cwd w1) (icon_dir l) = true.
Proof.
  intros Hl H Hex. unfold prepare in H.
  apply bind_inv in H as [(e & H & [=])|(w0 & e1 & H & H1)].
  injection H as <- <-.
  apply bind_inv in H1 as [(e & _ & [=])|(wa & [] & H1 & H2)].
  apply ensure_spec in H1 as (tr1 & _ & (Ca & _ & Cha) & _);
    [|by apply label_tail].
  assert (changes (λ k, k = local_key (cwd w) l) nothing (files w) (files wa))
    as Cha'.
  { eapply changes_weaken; [| |exact Cha]; [|done].
    intros k Hk. by eapply makes_label_key. }
  apply bind_inv in H2 as [(e & _ & [=])|(w0 & e2 & H2 & H3)].
  injection H2 as <- <-.
  apply bind_inv in H3 as [(e & _ & [=])|(w2 & [] & H3 & H4)].
  injection H4 as <- _.
  destruct (exists_ (files wa) (cwd wa) (icon_dir l)) eqn:Ex2.
  - change ((wa, inr ()) = (w2, @inr exn () ())) in H3. injection H3 as <-.
    split; [|exact Ex2].
    apply exists_true in Ex2 as [n Hn]. rewrite norm_icon_dir in Hn by done.
    pose proof Hn as Hn'. rewrite Ca in Hn'.
    apply (icon_dir_grown (files w) (files wa) (cwd w) l n Hl Cha' Hex) in Hn'.
    subst n. apply namei_key in Hn as [_ Hn].
    rewrite node_at_lookup in Hn by done. by rewrite Hn.
  - change (makedirs (icon_dir l) wa = (w2, inr ())) in H3.
    unfold makedirs in H3.
    apply makedirs_rec_ok in H3 as [Hd Hx]; [|by apply icon_dir_tail].
    rewrite norm_icon_dir in Hd by done. by split.
Qed.


End RunFacts.

(** * The statements of the specification *)

Import Fs Pil Py IconResize Spec Examples.
Import FsFacts PilFacts PyFacts PathFacts ScriptFacts RunFacts.

(** The pictures a completed run saved are those of the table, in its
    order. *)
Lemma run_saves w w' img :
  visible (trace w') = visible (trace w) ++ session img →
  saves (trace w') = saves (trace w) ++ all_saves img.
Proof.
  intros H. rewrite <- (saves_visible (trace w')), H, saves_app.
  by rewrite saves_visible, saves_session.
Qed.

(** A run is the pair of the world it leaves and its outcome. *)
Lemma run_ok {A} (m : M A) w x : (m w).2 = inr x → m w = ((m w).1, inr x).
Proof. destruct (m w) as [w' r]. cbn. by intros ->. Qed.

(** C1. When the source picture is not there, the run prints the two
    lines of its diagnostic and returns without an exception; the tree
    and the trace are as they were, so nothing was opened, made or saved.
    This is the only failure the script handles: with the source there,
    a run that returns without an exception has saved every icon of the
    table. *)
Theorem C1_missing_source_reported w :
  exists_ (files w) (cwd w) original_image_path = false →
  main w
  = ({| cwd := cwd w; files := files w;
        stdout := stdout w ++ [msg_not_found; msg_hint];
        trace := trace w |}, inr ())
  ∧ ∀ v v',
      exists_ (files v) (cwd v) original_image_path = true →
      main v = (v', inr ()) →
      ∃ img, saves (trace v') = saves (trace v) ++ all_saves img.
Proof.
  intros Hex. split; [by apply main_missing|].
  intros v v' Hv H.
  apply main_completed in H as (fmt & m & size & px & _ & _ & _ & V & _);
    [|exact Hv].
  exists (decode fmt m size px). by apply run_saves.
Qed.

Lemma C1_missing_source_witness :
  exists_ (files w_missing) (cwd w_missing) original_image_path = false
  ∧ main w_missing
    = ({| cwd := cwd w_missing; files := files w_missing;
          stdout := stdout w_missing ++ [msg_not_found; msg_hint];
          trace := trace w_missing |}, inr ()).
Proof.
  assert (exists_ (files w_missing) (cwd w_missing) original_image_path
          = false) as H by (vm_compute; reflexivity).
  split; [exact H|]. exact (proj1 (C1_missing_source_reported w_missing H)).
Defined.

(** C2, as the specification has it, fails: with a regular file where
    the [app] directory should be, the source exists and opens, and the
    run ends with NotADirectoryError and no output file at all. *)
Lemma C2_blocked_run_counterexample :
  exists_ (files w_blocked) (cwd w_blocked) original_image_path = true
  ∧ (Image_open original_image_path w_blocked).2
    = inr (decode PNG RGBA (512, 512) pixels)
  ∧ (main w_blocked).2 = inl NotADirectoryError
  ∧ saves (trace (main w_blocked).1) = []
  ∧ Forall (λ l, files (main w_blocked).1 !! out_key l = None) labels.
Proof.
  split; [vm_compute; reflexivity|].
  split; [vm_compute; reflexivity|].
  split; [vm_compute; reflexivity|].
  split; [vm_compute; reflexivity|].
  rewrite labels_eq.
  repeat (constructor; [vm_compute; reflexivity|]). constructor.
Qed.

(** C2, amended. A run that finds the source and ends without an
    exception has saved exactly one picture per entry of the table, in
    its order; for each entry the file is [ic_launcher.png] in the
    directory named by the label, under the resource directory, it is
    where the path of the output leads, and it holds a picture of
    exactly the size of the entry. *)
Theorem C2_completed_run_outputs w w' :
  exists_ (files w) (cwd w) original_image_path = true →
  main w = (w', inr ()) →
  ∃ img,
    Image_open original_image_path w
    = (log (Opened original_image_path) w, inr img)
    ∧ saves (trace w') = saves (trace w) ++ all_saves img
    ∧ List.length (all_saves img) = List.length icon_sizes
    ∧ ∀ l size, (l, size) ∈ icon_sizes →
        norm (cwd w') (output_filename l)
        = res_key ++ [l; "ic_launcher.png"]
        ∧ ∃ m px,
            files w' !! (res_key ++ [l; "ic_launcher.png"])
            = Some (File (Encoded PNG m size px)).
Proof.
  intros Hex H.
  apply main_completed in H as (fmt & m & sz & px & _ & Ho & _ & V & _ & D);
    [|exact Hex].
  exists (decode fmt m sz px). split; [exact Ho|].
  split; [by apply run_saves|]. split; [apply length_fmap|].
  intros l size Hl. split.
  - apply norm_output. apply list_elem_of_fmap. by exists (l, size).
  - rewrite Forall_forall in D. apply D, done_entry_file in Hl.
    exists m, (im_data (icon (decode fmt m sz px) size)).
    etrans; [exact Hl|]. unfold png_of, icon.
    by rewrite resize_size, resize_mode.
Qed.

Lemma C2_completed_run_witness :
  ∃ img,
    Image_open original_image_path w_ok
    = (log (Opened original_image_path) w_ok, inr img)
    ∧ saves (trace (main w_ok).1) = saves (trace w_ok) ++ all_saves img
    ∧ List.length (all_saves img) = List.length icon_sizes
    ∧ ∀ l size, (l, size) ∈ icon_sizes →
        norm (cwd (main w_ok).1) (output_filename l)
        = res_key ++ [l; "ic_launcher.png"]
        ∧ ∃ m px,
            files (main w_ok).1 !! (res_key ++ [l; "ic_launcher.png"])
            = Some (File (Encoded PNG m size px)).
Proof.
  apply (C2_completed_run_outputs w_ok (main w_ok).1).
  - vm_compute. reflexivity.
  - apply run_ok. vm_compute. reflexivity.
Defined.


(** C3. The directory of the configured source is [main_dir]; for every
    entry of the table the output path is
    [main_dir/../app/src/main/res/<label>/ic_launcher.png], the run saves
    the icon under exactly that path, and once the run is through the
    entry the path leads to holds the new icon, whatever was there
    before: an existing file is overwritten.  No run, whatever its
    outcome, saves a picture under a path that is not of this form. *)
Theorem C3_output_path w w' l size :
  (l, size) ∈ icon_sizes →
  exists_ (files w) (cwd w) original_image_path = true →
  main w = (w', inr ()) →
  original_image_path = (main_dir ++ "/logo.png")%string
  ∧ output_filename l
    = (main_dir ++ "/../app/src/main/res/" ++ l ++ "/ic_launcher.png")%string
  ∧ ∃ img,
      Image_open original_image_path w
      = (log (Opened original_image_path) w, inr img)
      ∧ (output_filename l, icon img size) ∈ saves (trace w')
      ∧ files w' !! norm (cwd w) (output_filename l)
        = Some (File (png_of (icon img size)))
      ∧ ∀ v p im,
          (p, im) ∈ saves (trace (main v).1) →
          (p, im) ∈ saves (trace v)
          ∨ ∃ l', l' ∈ labels
                  ∧ p = (main_dir ++ "/../app/src/main/res/" ++ l'
                         ++ "/ic_launcher.png")%string.
Proof.
  intros Hl Hex H.
  assert (l ∈ labels) as Hll.
  { apply list_elem_of_fmap. by exists (l, size). }
  split; [reflexivity|]. split; [by label_cases Hll|].
  apply main_completed in H as (fmt & m & sz & px & _ & Ho & _ & V & _ & D);
    [|exact Hex].
  exists (decode fmt m sz px). split; [exact Ho|]. split.
  - rewrite (run_saves _ _ _ V). apply elem_of_app. right.
    apply list_elem_of_fmap. by exists (l, size).
  - split.
    + rewrite norm_output by done. rewrite Forall_forall in D.
      by apply D, done_entry_file in Hl.
    + intros v p im Hin.
      apply main_saves_located in Hin as [Hin|(l' & Hl' & ->)]; [by left|].
      right. exists l'. split; [done|]. by label_cases Hl'.
Qed.

Lemma C3_output_path_witness :
  files w_old !! out_key "mipmap-mdpi"
  = Some (File (Encoded PNG RGB (48, 48) (Samples [7])))
  ∧ ∃ img,
      Image_open original_image_path w_old
      = (log (Opened original_image_path) w_old, inr img)
      ∧ (output_filename "mipmap-mdpi", icon img (48, 48))
        ∈ saves (trace (main w_old).1)
      ∧ files (main w_old).1
          !! norm (cwd w_old) (output_filename "mipmap-mdpi")
        = Some (File (png_of (icon img (48, 48))))
      ∧ ∀ v p im,
          (p, im) ∈ saves (trace (main v).1) →
          (p, im) ∈ saves (trace v)
          ∨ ∃ l', l' ∈ labels
                  ∧ p = (main_dir ++ "/../app/src/main/res/" ++ l'
                         ++ "/ic_launcher.png")%string.
Proof.
  split; [vm_compute; reflexivity|].
  apply (C3_output_path w_old (main w_old).1 "mipmap-mdpi" (48, 48)).
  - unfold icon_sizes. do 4 right. left.
  - vm_compute. reflexivity.
  - apply run_ok. vm_compute. reflexivity.
Defined.

(** C4 at a source with a palette: the run goes through, and every
    icon was resampled with NEAREST, not with the LANCZOS filter the
    script asks for. *)
Theorem C4_palette_source_resampled_nearest :
  files w_palette !! src_key = Some (File (Encoded PNG P (512, 512) pixels))
  ∧ (main w_palette).2 = inr ()
  ∧ Forall (λ e : string * (Z * Z),
       files (main w_palette).1 !! out_key e.1
       = Some (File (Encoded PNG P e.2
                       (Resampled NEAREST (0, 0, 512, 512) pixels e.2))))
      icon_sizes.
Proof.
  split; [vm_compute; reflexivity|]. split; [vm_compute; reflexivity|].
  unfold icon_sizes.
  repeat (constructor; [vm_compute; reflexivity|]). constructor.
Qed.

(** C6, as the specification has it, fails: run from [/tmp], the script
    leaves a directory [/tmp/mipmap-xxxhdpi] that was not there, and that
    is not on the way to any output file. *)
Lemma C6_stray_directory_counterexample :
  files w_ok !! ["tmp"; "mipmap-xxxhdpi"] = None
  ∧ files (main w_ok).1 !! ["tmp"; "mipmap-xxxhdpi"] = Some Dir
  ∧ Forall (λ l, ¬ ["tmp"; "mipmap-xxxhdpi"] `prefix_of` out_key l) labels.
Proof.
  split; [vm_compute; reflexivity|]. split; [vm_compute; reflexivity|].
  rewrite labels_eq.
  repeat (constructor; [by intros [k [=]]|]). constructor.
Qed.

(** C6, amended. Whatever its outcome, a run changes the tree only in
    these ways: an output file is written, or a directory appears at an
    entry that was free, and that entry is the directory of a label under
    the resource directory, one of the four directories leading to it, or
    the label itself taken as a path in the working directory. *)
Theorem C6_changes_confined w k :
  files (main w).1 !! k ≠ files w !! k →
  ((∃ l, l ∈ labels ∧ k = out_key l)
   ∧ ∃ c, files (main w).1 !! k = Some (File c))
  ∨ ((k ∈ res_chain
      ∨ (∃ l, l ∈ labels ∧ k = dir_key l)
      ∨ (∃ l, l ∈ labels ∧ k = local_key (cwd w) l))
     ∧ files w !! k = None ∧ files (main w).1 !! k = Some Dir).
Proof.
  intros Hne. destruct (main_changes w) as [_ Hch].
  destruct (Hch k) as [E|[(N & E & HD)|(HO & _ & c & E)]]; [done| |].
  - right. by split_and!.
  - left. split; [exact HO|]. by exists c.
Qed.

Lemma C6_changes_confined_witness :
  files (main w_ok).1 !! ["tmp"; "mipmap-hdpi"]
  ≠ files w_ok !! ["tmp"; "mipmap-hdpi"]
  ∧ (((∃ l, l ∈ labels ∧ ["tmp"; "mipmap-hdpi"] = out_key l)
      ∧ ∃ c, files (main w_ok).1 !! ["tmp"; "mipmap-hdpi"] = Some (File c))
     ∨ ((["tmp"; "mipmap-hdpi"] ∈ res_chain
         ∨ (∃ l, l ∈ labels ∧ ["tmp"; "mipmap-hdpi"] = dir_key l)
         ∨ (∃ l, l ∈ labels
                 ∧ ["tmp"; "mipmap-hdpi"] = local_key (cwd w_ok) l))
        ∧ files w_ok !! ["tmp"; "mipmap-hdpi"] = None
        ∧ files (main w_ok).1 !! ["tmp"; "mipmap-hdpi"] = Some Dir)).
Proof.
  assert (files (main w_ok).1 !! ["tmp"; "mipmap-hdpi"]
          ≠ files w_ok !! ["tmp"; "mipmap-hdpi"]) as H
    by (vm_compute; discriminate).
  split; [exact H|].
  exact (C6_changes_confined w_ok ["tmp"; "mipmap-hdpi"] H).
Defined.

(** C5. For every entry of the table the directory of the label is
    there before the file is written: when the script does not find it,
    the statements before the save make it, and in the world [save] is
    called in it is a directory.  And the run is idempotent: after a run
    that found the source and ended without an exception, a second run
    ends without an exception too, saves the same five pictures over the
    files of the first, and leaves the tree exactly as the first run
    left it, each output under its name and with the size of its entry.
    A run that only reported a missing source can be repeated as
    well. *)
Theorem C5_directory_first_and_rerun w w1 :
  exists_ (files w) (cwd w) original_image_path = true →
  main w = (w1, inr ()) →
  (∃ img w2,
     main w1 = (w2, inr ()) ∧ cwd w2 = cwd w1 ∧ files w2 = files w1
     ∧ saves (trace w1) = saves (trace w) ++ all_saves img
     ∧ saves (trace w2) = saves (trace w1) ++ all_saves img
     ∧ ∀ l size, (l, size) ∈ icon_sizes →
         files w2 !! out_key l = Some (File (png_of (icon img size)))
         ∧ im_size (icon img size) = size)
  ∧ (∀ img l size v v1 im,
       (l, size) ∈ icon_sizes →
       prepare img l size v = (v1, inr im) →
       exists_ (files v) (cwd v) (icon_dir l) = false →
       files v1 !! dir_key l = Some Dir
       ∧ exists_ (files v1) (cwd v1) (icon_dir l) = true)
  ∧ (∀ img l size v v',
       (l, size) ∈ icon_sizes →
       body img (l, size) v = (v', inr ()) →
       ∃ v1 v2,
         prepare img l size v = (v1, inr (icon img size))
         ∧ files v1 !! dir_key l = Some Dir
         ∧ save (icon img size) (output_filename l) v1 = (v2, inr ())
         ∧ files v' = files v2)
  ∧ (∀ v v1,
       main v = (v1, inr ()) →
       ∃ v2, main v1 = (v2, inr ()) ∧ cwd v2 = cwd v1 ∧ files v2 = files v1).
Proof.
  intros Hex H.
  assert (∀ v v1,
            main v = (v1, inr ()) →
            ∃ v2, main v1 = (v2, inr ()) ∧ cwd v2 = cwd v1
                  ∧ files v2 = files v1) as Hre.
  { intros v v1 Hv.
    destruct (exists_ (files v) (cwd v) original_image_path) eqn:Hexv.
    + apply main_completed in Hv as Hc; [|exact Hexv].
      destruct Hc as (fmt & m & sz & px & Hs & _ & C & _ & Ch & D).
      apply (main_settled v1 fmt m sz px).
      * rewrite C. by eapply exists_mono.
      * eapply changes_keeps_file; [exact Ch|apply src_key_not_out|exact Hs].
      * exact D.
    + rewrite main_missing in Hv by exact Hexv. injection Hv as <-.
      rewrite main_missing by exact Hexv. eauto. }
  split; [|split; [|split; [|exact Hre]]].
  - destruct (Hre w w1 H) as (w2 & H2 & C2 & F2).
    apply main_completed in H as Hc; [|exact Hex].
    destruct Hc as (fmt & m & sz & px & Hs & _ & C & V & Ch & D).
    assert (exists_ (files w1) (cwd w1) original_image_path = true) as Hex1.
    { rewrite C. by eapply exists_mono. }
    apply main_completed in H2 as Hc2; [|exact Hex1].
    destruct Hc2 as (fmt' & m' & sz' & px' & Hs' & _ & _ & V' & _ & D').
    assert (files w1 !! src_key = Some (File (Encoded fmt m sz px))) as Hs1.
    { eapply changes_keeps_file; [exact Ch|apply src_key_not_out|exact Hs]. }
    rewrite Hs1 in Hs'. injection Hs' as <- <- <- <-.
    exists (decode fmt m sz px), w2.
    split; [exact H2|]. split; [exact C2|]. split; [exact F2|].
    split; [by apply run_saves|]. split; [by apply run_saves|].
    intros l size Hl. split; [|apply resize_size].
    rewrite Forall_forall in D'. by apply D', done_entry_file in Hl.
  - intros img l size v v1 im Hl Hp Hno.
    eapply prepare_makes_dir; [|exact Hp|exact Hno].
    apply list_elem_of_fmap. by exists (l, size).
  - intros img l size v v' Hl Hb.
    assert (l ∈ labels) as Hll.
    { apply list_elem_of_fmap. by exists (l, size). }
    unfold body in Hb.
    apply bind_inv in Hb as [(e & _ & [=])|(v1 & im & Hp & Hb)].
    apply bind_inv in Hb as [(e & _ & [=])|(v2 & [] & Hs & Hb)].
    rewrite print_spec in Hb. injection Hb as <-.
    assert (im = icon img size) as ->.
    { unfold prepare in Hp.
      apply bind_inv in Hp as [(e & _ & [=])|(? & ? & _ & Hp)].
      apply bind_inv in Hp as [(e & _ & [=])|(? & ? & _ & Hp)].
      apply bind_inv in Hp as [(e & _ & [=])|(? & ? & _ & Hp)].
      apply bind_inv in Hp as [(e & _ & [=])|(? & ? & _ & Hp)].
      by injection Hp as _ <-. }
    exists v1, v2. split; [exact Hp|]. split; [|split; [exact Hs|done]].
    apply save_spec in Hs as (_ & _ & _ & o & Hn);
      [|by apply extension_output].
    by eapply output_through_dir.
Qed.

(** The first run on [w_ok] finds no resource tree: for the first
    label the statements before the save make its directory. *)
Lemma C5_directory_first_and_rerun_witness :
  (∃ img w2,
     main (main w_ok).1 = (w2, inr ())
     ∧ cwd w2 = cwd (main w_ok).1 ∧ files w2 = files (main w_ok).1
     ∧ saves (trace (main w_ok).1) = saves (trace w_ok) ++ all_saves img
     ∧ saves (trace w2) = saves (trace (main w_ok).1) ++ all_saves img
     ∧ ∀ l size, (l, size) ∈ icon_sizes →
         files w2 !! out_key l = Some (File (png_of (icon img size)))
         ∧ im_size (icon img size) = size)
  ∧ exists_ (files w_ok) (cwd w_ok) (icon_dir "mipmap-xxxhdpi") = false
  ∧ files (prepare (decode PNG RGBA (512, 512) pixels)
             "mipmap-xxxhdpi" (192, 192) w_ok).1
      !! dir_key "mipmap-xxxhdpi" = Some Dir.
Proof.
  assert (exists_ (files w_ok) (cwd w_ok) original_image_path = true) as Hex
    by (vm_compute; reflexivity).
  assert (main w_ok = ((main w_ok).1, inr ())) as Hm
    by (apply run_ok; vm_compute; reflexivity).
  assert (exists_ (files w_ok) (cwd w_ok) (icon_dir "mipmap-xxxhdpi")
          = false) as Hno by (vm_compute; reflexivity).
  destruct (C5_directory_first_and_rerun w_ok (main w_ok).1 Hex Hm)
    as (Hrerun & Hdir & _).
  split; [exact Hrerun|]. split; [exact Hno|].
  refine (proj1 (Hdir (decode PNG RGBA (512, 512) pixels)
                   "mipmap-xxxhdpi" (192, 192) w_ok _
                   (icon (decode PNG RGBA (512, 512) pixels) (192, 192))
                   _ _ Hno)).
  - unfold icon_sizes. left.
  - apply run_ok. vm_compute. reflexivity.
Defined.

(** C7. A source that is not square is stretched: every icon is
    resampled from the whole area of the source, [(0, 0, width, height)],
    to the size of its entry, which is square; no part of the source is
    cut away. *)
Theorem C7_stretched_not_cropped w w' fmt m width height px l size :
  files w !! src_key = Some (File (Encoded fmt m (width, height) px)) →
  width ≠ height →
  exists_ (files w) (cwd w) original_image_path = true →
  main w = (w', inr ()) →
  (l, size) ∈ icon_sizes →
  size.1 = size.2
  ∧ ∃ filter,
      files w' !! out_key l
      = Some (File (Encoded PNG m size
                      (Resampled filter (0, 0, width, height) px size))).
Proof.
  intros Hs Hne Hex H Hl.
  assert (size.1 = size.2) as Hsq.
  { unfold icon_sizes in Hl.
    repeat (apply elem_of_cons in Hl as [[= -> ->]|Hl]; [done|]).
    by apply elem_of_nil in Hl. }
  split; [exact Hsq|].
  apply main_completed in H
    as (fmt' & m' & sz' & px' & Hs' & _ & _ & _ & _ & D); [|exact Hex].
  rewrite Hs in Hs'. injection Hs' as <- <- <- <-.
  rewrite Forall_forall in D. apply D, done_entry_file in Hl.
  eexists. rewrite Hl. unfold png_of, icon.
  rewrite resize_size, resize_mode, resize_data; [reflexivity|].
  cbn. intros <-. by cbn in Hsq.
Qed.

Lemma C7_stretched_not_cropped_witness :
  ∃ filter,
    files (main w_wide).1 !! out_key "mipmap-hdpi"
    = Some (File (Encoded PNG RGB (72, 72)
                    (Resampled filter (0, 0, 400, 200) pixels (72, 72)))).
Proof.
  refine (proj2 (C7_stretched_not_cropped w_wide (main w_wide).1
                   PNG RGB 400 200 pixels "mipmap-hdpi" (72, 72)
                   _ _ _ _ _)).
  - vm_compute. reflexivity.
  - done.
  - vm_compute. reflexivity.
  - apply run_ok. vm_compute. reflexivity.
  - unfold icon_sizes. do 3 right. left.
Defined.

(** C8, as the specification has it, fails: a JPEG picture under the
    configured name is opened by its content, and the icons are PNG
    files. *)
Lemma C8_jpeg_source_counterexample :
  files w_jpeg !! src_key
  = Some (File (Encoded JPEG RGB (512, 512) pixels))
  ∧ (main w_jpeg).2 = inr ()
  ∧ files (main w_jpeg).1 !! out_key "mipmap-mdpi"
    = Some (File (Encoded PNG RGB (48, 48)
                    (Resampled LANCZOS (0, 0, 512, 512) pixels (48, 48))))
  ∧ PNG ≠ JPEG.
Proof.
  split; [vm_compute; reflexivity|]. split; [vm_compute; reflexivity|].
  split; [vm_compute; reflexivity|done].
Qed.

(** C8, amended. Whatever the format of the source, every output file
    of a run that finds the source and ends without an exception is a
    PNG picture. *)
Theorem C8_outputs_are_png w w' :
  exists_ (files w) (cwd w) original_image_path = true →
  main w = (w', inr ()) →
  ∃ fmt m0 size0 px0,
    files w !! src_key = Some (File (Encoded fmt m0 size0 px0))
    ∧ ∀ l, l ∈ labels →
        ∃ m size px,
          files w' !! out_key l = Some (File (Encoded PNG m size px)).
Proof.
  intros Hex H.
  apply main_completed in H as (fmt & m & sz & px & Hs & _ & _ & _ & _ & D);
    [|exact Hex].
  exists fmt, m, sz, px. split; [exact Hs|].
  intros l Hl. apply list_elem_of_fmap in Hl as ([l' size] & -> & Hl).
  rewrite Forall_forall in D. apply D, done_entry_file in Hl.
  eexists _, _, _. etrans; [exact Hl|]. reflexivity.
Qed.

Lemma C8_outputs_are_png_witness :
  ∃ fmt m0 size0 px0,
    files w_jpeg !! src_key = Some (File (Encoded fmt m0 size0 px0))
    ∧ ∀ l, l ∈ labels →
        ∃ m size px,
          files (main w_jpeg).1 !! out_key l
          = Some (File (Encoded PNG m size px)).
Proof.
  apply (C8_outputs_are_png w_jpeg (main w_jpeg).1).
  - vm_compute. reflexivity.
  - apply run_ok. vm_compute. reflexivity.
Defined.



(** C10. Whatever its outcome, a run leaves every regular file that is
    not one of the five outputs as it was, with its content; and the
    entry of the source picture is never changed. *)
Theorem C10_other_files_untouched w k c :
  files w !! k = Some (File c) →
  (∀ l, l ∈ labels → k ≠ out_key l) →
  files (main w).1 !! k = Some (File c)
  ∧ files (main w).1 !! src_key = files w !! src_key.
Proof.
  intros Hk Hno. destruct (main_changes w) as [_ Hch]. split.
  - eapply changes_keeps_file; [exact Hch| |exact Hk].
    intros (l & Hl & ->). by eapply Hno.
  - destruct (Hch src_key) as [E|[(_ & _ & HD)|(HO & _)]]; [exact E| |].
    + by apply src_key_not_dir in HD.
    + by apply src_key_not_out in HO.
Qed.

Lemma C10_other_files_untouched_witness :
  files (main w_ok).1 !! src_key
  = Some (File (Encoded PNG RGBA (512, 512) pixels))
  ∧ files (main w_ok).1 !! src_key = files w_ok !! src_key.
Proof.
  apply (C10_other_files_untouched w_ok src_key).
  - vm_compute. reflexivity.
  - intros l Hl. label_cases Hl; done.
Defined.


(** * Further properties of the script *)

Lemma msg_created_not_done p s : msg_created p s ≠ msg_done.
Proof. unfold msg_created, msg_done, nl. cbn [append]. discriminate. Qed.

Lemma created_lines_not_done xs : msg_done ∉ created_lines xs.
Proof.
  unfold created_lines. intros ([l s] & H & _)%list_elem_of_fmap.
  symmetry in H. by apply msg_created_not_done in H.
Qed.

(** X1. A run that finds the source and ends without an exception has
    printed, in this order: the line that names the picture being
    processed, one line per entry of the table in the order of the
    table, with the output path and the size of the entry, and the
    completion line; nothing else. *)
Theorem X1_completed_run_output w w' :
  exists_ (files w) (cwd w) original_image_path = true →
  main w = (w', inr ()) →
  stdout w'
  = stdout w ++ [msg_processing] ++ created_lines icon_sizes ++ [msg_done].
Proof.
  intros Hex H.
  apply main_partial in H as [(e & [=] & _)|(fmt & m & sz & px & j & Hr)];
    [|exact Hex].
  destruct Hr as (_ & _ & _ & O & _ & Hj).
  assert (j = List.length icon_sizes) as -> by by apply Hj.
  by rewrite firstn_all in O.
Qed.

Lemma X1_completed_run_output_witness :
  stdout (main w_ok).1
  = stdout w_ok ++ [msg_processing] ++ created_lines icon_sizes ++ [msg_done].
Proof.
  apply (X1_completed_run_output w_ok (main w_ok).1).
  - vm_compute. reflexivity.
  - apply run_ok. vm_compute. reflexivity.
Defined.

(** X2. The completion line is printed by exactly the runs that found
    the source and ended without an exception: it follows neither the
    diagnostic of a missing source nor a failure, at whatever round. *)
Theorem X2_completion_line_iff_success w :
  ∃ out,
    stdout (main w).1 = stdout w ++ out
    ∧ (msg_done ∈ out
       ↔ exists_ (files w) (cwd w) original_image_path = true
         ∧ (main w).2 = inr ()).
Proof.
  destruct (exists_ (files w) (cwd w) original_image_path) eqn:Hex.
  - destruct (main w) as [w' r] eqn:H. cbn [fst snd].
    apply main_partial in H as [(e & -> & -> & _)|(fmt & m & sz & px & j & Hr)];
      [| |exact Hex].
    + exists []. rewrite app_nil_r. split; [reflexivity|].
      split; [by intros ?%elem_of_nil|by intros [_ [=]]].
    + destruct Hr as (_ & _ & _ & O & _ & _).
      eexists. split; [exact O|].
      rewrite !elem_of_app. split.
      * intros [Hin|[Hin|Hin]].
        -- apply list_elem_of_singleton in Hin. discriminate Hin.
        -- by apply created_lines_not_done in Hin.
        -- destruct r as [e|[]]; [by apply elem_of_nil in Hin|done].
      * intros [_ ->]. right; right. by apply list_elem_of_singleton.
  - rewrite main_missing by exact Hex. cbn [fst snd].
    eexists. split; [reflexivity|]. split; [|by intros [[=] _]].
    intros [Hin|Hin]%elem_of_cons; [discriminate Hin|].
    apply list_elem_of_singleton in Hin. discriminate Hin.
Qed.

(** X3. When the configured path exists and holds no picture, a
    directory or a file whose bytes are none, [Image.open] raises
    (IsADirectoryError for the directory, UnidentifiedImageError for the
    file), the exception leaves the script, and nothing at all has
    happened: no line printed, no directory made, nothing saved. *)
Theorem X3_unreadable_source_raises w n :
  exists_ (files w) (cwd w) original_image_path = true →
  files w !! src_key = Some n →
  (∀ fmt m size px, n ≠ File (Encoded fmt m size px)) →
  main w
  = (w, inl (match n with
             | Dir => IsADirectoryError
             | File _ => UnidentifiedImageError
             end)).
Proof.
  intros Hex Hs Hn. apply main_open_fails; [exact Hex|].
  apply source_base in Hex as [Hb _].
  pose proof (base_namei_source (files w) (cwd w) Hb) as Hi.
  assert (node_at (files w) src_key = Some n) as Hs' by exact Hs.
  rewrite Hs' in Hi. unfold Image_open, read. rewrite Hi.
  destruct n as [|[fmt m size px|b]]; [reflexivity| |reflexivity].
  by destruct (Hn fmt m size px).
Qed.

Lemma X3_unreadable_source_witness :
  main w_garbage = (w_garbage, inl UnidentifiedImageError)
  ∧ main w_source_dir = (w_source_dir, inl IsADirectoryError).
Proof.
  split.
  - apply (X3_unreadable_source_raises w_garbage
             (File (Blob "not a picture"))).
    + vm_compute. reflexivity.
    + vm_compute. reflexivity.
    + intros fmt m size px. discriminate.
  - apply (X3_unreadable_source_raises w_source_dir Dir).
    + vm_compute. reflexivity.
    + vm_compute. reflexivity.
    + intros fmt m size px. discriminate.
Defined.

(** X4. Nothing is rolled back: every picture a run has saved is in
    its file when the run ends, also when the run fails at a later
    round. *)
Theorem X4_saved_icons_stay w p im :
  trace w = [] →
  (p, im) ∈ saves (trace (main w).1) →
  files (main w).1 !! norm (cwd w) p = Some (File (png_of im)).
Proof.
  intros Ht Hin.
  destruct (exists_ (files w) (cwd w) original_image_path) eqn:Hex.
  - destruct (main w) as [w' r] eqn:H. cbn [fst] in *.
    apply main_partial in H as [(e & _ & -> & _)|(fmt & m & sz & px & j & Hr)];
      [| |exact Hex].
    { rewrite Ht in Hin. by apply elem_of_nil in Hin. }
    destruct Hr as (_ & _ & Sv & _ & D & _).
    rewrite Sv, Ht in Hin. cbn [saves omap list_omap app] in Hin.
    unfold all_saves in Hin. rewrite <- fmap_take in Hin.
    apply list_elem_of_fmap in Hin as ([l s] & [= -> ->] & Hl).
    rewrite Forall_forall in D. pose proof (D _ Hl) as Hf.
    apply done_entry_file in Hf.
    rewrite norm_output; [exact Hf|].
    apply list_elem_of_fmap. exists (l, s). split; [done|].
    by apply (subseteq_take j icon_sizes).
  - rewrite main_missing in Hin by exact Hex. cbn [fst trace] in Hin.
    rewrite Ht in Hin. by apply elem_of_nil in Hin.
Qed.

Lemma X4_saved_icons_stay_witness :
  (main w_halfway).2 = inl NotADirectoryError
  ∧ files (main w_halfway).1
      !! norm (cwd w_halfway) (output_filename "mipmap-xxhdpi")
    = Some (File (png_of (icon (decode PNG RGBA (512, 512) pixels)
                            (144, 144)))).
Proof.
  split; [vm_compute; reflexivity|].
  apply (X4_saved_icons_stay w_halfway).
  - reflexivity.
  - assert (saves (trace (main w_halfway).1)
            = take 2 (all_saves (decode PNG RGBA (512, 512) pixels))) as ->
      by (vm_compute; reflexivity).
    right. left.
Defined.

(** X5. A run removes nothing and moves nowhere: whatever its outcome,
    every path that could be found before the run can be found after it,
    the working directory is the same, and every directory is still a
    directory. *)
Theorem X5_nothing_removed w p :
  exists_ (files w) (cwd w) p = true →
  exists_ (files (main w).1) (cwd (main w).1) p = true
  ∧ cwd (main w).1 = cwd w
  ∧ ∀ k, files w !! k = Some Dir → files (main w).1 !! k = Some Dir.
Proof.
  intros Hp. destruct (main_changes w) as [C Hch].
  split; [|split; [exact C|]].
  - rewrite C. by eapply exists_mono.
  - intros k Hk.
    destruct (Hch k) as [E|[(N & _)|(_ & N & _)]]; congruence.
Qed.

Lemma X5_nothing_removed_witness :
  exists_ (files (main w_halfway).1) (cwd (main w_halfway).1)
    original_image_path = true
  ∧ cwd (main w_halfway).1 = cwd w_halfway
  ∧ ∀ k, files w_halfway !! k = Some Dir →
         files (main w_halfway).1 !! k = Some Dir.
Proof.
  apply (X5_nothing_removed w_halfway original_image_path).
  vm_compute. reflexivity.
Defined.

(** X6. A source in a pixel mode the PNG writer refuses (CMYK, YCbCr,
    F) opens, but the run never ends without an exception and saves no
    picture at all. *)
Theorem X6_refused_mode_never_completes w fmt m size px :
  exists_ (files w) (cwd w) original_image_path = true →
  files w !! src_key = Some (File (Encoded fmt m size px)) →
  png_writable m = false →
  (main w).2 ≠ inr () ∧ saves (trace (main w).1) = saves (trace w).
Proof.
  intros Hex Hs Hm. destruct (main w) as [w' r] eqn:H. cbn [fst snd].
  apply main_partial in H
    as [(e & -> & -> & _)|(fmt' & m' & sz' & px' & j & Hr)];
    [by split| |exact Hex].
  destruct Hr as (Hs' & _ & Sv & _ & D & Hj).
  rewrite Hs in Hs'. injection Hs' as <- <- <- <-.
  destruct j as [|j].
  - split; [|by rewrite Sv, app_nil_r].
    intros Hr. apply Hj in Hr. discriminate Hr.
  - exfalso. unfold icon_sizes in D. cbn [take] in D.
    apply Forall_cons in D as [(_ & _ & Wr & _) _]. cbn [snd] in Wr.
    unfold icon in Wr. rewrite resize_mode in Wr. cbn in Wr. congruence.
Qed.

Lemma X6_refused_mode_witness :
  (main w_cmyk).2 ≠ inr ()
  ∧ saves (trace (main w_cmyk).1) = saves (trace w_cmyk).
Proof.
  apply (X6_refused_mode_never_completes w_cmyk JPEG CMYK (512, 512) pixels).
  - vm_compute. reflexivity.
  - vm_compute. reflexivity.
  - reflexivity.
Defined.

(** A label that cannot be resolved cannot be made either. *)
Lemma makedirs_label_unreachable l w e :
  l ∈ labels →
  namei (files w) (cwd w) l = inl e →
  makedirs l w = (w, inl (of_errno e)).
Proof.
  intros Hl Hn. unfold makedirs. cbn [makedirs_rec].
  rewrite head_tail_label by exact Hl.
  rewrite (bool_decide_eq_true_2 ("" = "")) by reflexivity.
  cbn [negb andb]. unfold mbind, M_bind, mret, M_ret.
  unfold mkdir, Fs.mkdir. by rewrite Hn.
Qed.

Lemma for_first_unreachable img w e :
  namei (files w) (cwd w) "mipmap-xxxhdpi" = inl e →
  for_ icon_sizes (body img) w = (w, inl (of_errno e)).
Proof.
  intros Hn.
  assert ("mipmap-xxxhdpi" ∈ labels) as Hl by (rewrite labels_eq; left).
  assert (prepare img "mipmap-xxxhdpi" (192, 192) w = (w, inl (of_errno e)))
    as Hp.
  { unfold prepare.
    rewrite (bind_ok _ _ w w false)
      by (unfold path_exists, exists_; by rewrite Hn).
    cbn [negb]. apply bind_raise. by apply makedirs_label_unreachable. }
  unfold icon_sizes. cbn [for_]. apply bind_raise.
  unfold body. apply bind_raise. exact Hp.
Qed.

(** X7. Although every output path is absolute, the script depends on
    the working directory: run from a directory that has been removed,
    it opens the picture and then fails with FileNotFoundError at the
    first label, which it tries to make as a directory of its own; the
    tree is unchanged and nothing is saved. *)
Theorem X7_removed_working_directory w fmt m size px :
  exists_ (files w) (cwd w) original_image_path = true →
  files w !! src_key = Some (File (Encoded fmt m size px)) →
  node_at (files w) (cwd w) = None →
  (main w).2 = inl FileNotFoundError
  ∧ files (main w).1 = files w
  ∧ saves (trace (main w).1) = saves (trace w).
Proof.
  intros Hex Hs Hc. rewrite main_unfold by exact Hex.
  apply source_base in Hex as [Hb _].
  pose proof (base_namei_source (files w) (cwd w) Hb) as Hi.
  assert (node_at (files w) src_key
          = Some (File (Encoded fmt m size px))) as Hs' by exact Hs.
  rewrite Hs' in Hi. apply Image_open_found in Hi.
  set (w0 := {| cwd := cwd w; files := files w;
                stdout := stdout (log (Opened original_image_path) w)
                          ++ [msg_processing];
                trace := trace (log (Opened original_image_path) w) |}).
  assert (namei (files w0) (cwd w0) "mipmap-xxxhdpi" = inl ENOENT) as Hn.
  { unfold w0; cbn [files cwd]. unfold namei.
    rewrite bool_decide_eq_false_2 by discriminate.
    change (origin (cwd w) "mipmap-xxxhdpi") with (cwd w).
    by rewrite Hc. }
  assert ((print msg_processing;;
           for_ icon_sizes (body (decode fmt m size px)))
            (log (Opened original_image_path) w)
          = (w0, inl FileNotFoundError)) as Hbody.
  { rewrite (bind_ok _ _ _ _ ()
               (print_spec msg_processing
                  (log (Opened original_image_path) w))).
    exact (for_first_unreachable _ w0 ENOENT Hn). }
  pose proof (with_ok original_image_path
                (λ img, print msg_processing;; for_ icon_sizes (body img))
                _ _ _ _ _ Hi Hbody) as Hw.
  rewrite (bind_raise _ _ _ _ _ Hw). cbn [fst snd].
  split; [reflexivity|]. split; [reflexivity|].
  unfold w0, log; cbn [trace]. rewrite !saves_app.
  change (saves [Opened original_image_path]) with (@nil (string * image)).
  change (saves [Closed original_image_path]) with (@nil (string * image)).
  by rewrite !app_nil_r.
Qed.

Lemma X7_removed_working_directory_witness :
  (main w_no_cwd).2 = inl FileNotFoundError
  ∧ files (main w_no_cwd).1 = files w_no_cwd
  ∧ saves (trace (main w_no_cwd).1) = saves (trace w_no_cwd).
Proof.
  apply (X7_removed_working_directory w_no_cwd PNG RGBA (512, 512) pixels).
  - vm_compute. reflexivity.
  - vm_compute. reflexivity.
  - vm_compute. reflexivity.
Defined.

(** X8. The script tests for existence, not for kind, and repairs
    nothing: with a regular file where the directory of a label should
    be, or a directory where an output file should be, a run that finds
    the source never ends without an exception. *)
Theorem X8_wrong_kind_in_the_way w l :
  exists_ (files w) (cwd w) original_image_path = true →
  l ∈ labels →
  (∃ c, files w !! dir_key l = Some (File c))
  ∨ files w !! out_key l = Some Dir →
  (main w).2 ≠ inr ().
Proof.
  intros Hex Hl Hk. destruct (main w) as [w' r] eqn:H. cbn [snd].
  intros ->.
  apply main_completed in H as (fmt & m & sz & px & _ & _ & _ & _ & Ch & D);
    [|exact Hex].
  apply list_elem_of_fmap in Hl as Hl'. destruct Hl' as ([l' s] & -> & Hls).
  rewrite Forall_forall in D. pose proof (D _ Hls) as Hd.
  destruct Hk as [[c Hc]|Hdir].
  - destruct Hd as (_ & _ & _ & Hn). cbn [fst snd] in *.
    eapply output_through_dir in Hn; [|exact Hl].
    eapply changes_keeps_file in Hc; [|exact Ch|].
    + congruence.
    + intros (l2 & _ & Heq). unfold dir_key, out_key in Heq.
      by simplify_list_eq.
  - apply done_entry_file in Hd. cbn [fst] in *.
    destruct (Ch (out_key l')) as [E|[(N & _)|(_ & N & _)]]; congruence.
Qed.

Lemma X8_wrong_kind_witness : (main w_halfway).2 ≠ inr ().
Proof.
  apply (X8_wrong_kind_in_the_way w_halfway "mipmap-xhdpi").
  - vm_compute. reflexivity.
  - rewrite labels_eq. do 2 right. left.
  - left. exists (Blob ""). vm_compute. reflexivity.
Defined.

(** X9. After a run that found the source and ended without an
    exception, every label of the table names an entry in the working
    directory as well, next to the directory of the same name in the
    resource tree: both of the paths the script tests exist. *)
Theorem X9_labels_exist_in_both_places w w' l :
  exists_ (files w) (cwd w) original_image_path = true →
  main w = (w', inr ()) →
  l ∈ labels →
  is_Some (files w' !! local_key (cwd w) l)
  ∧ files w' !! dir_key l = Some Dir.
Proof.
  intros Hex H Hl.
  apply main_completed in H as (fmt & m & sz & px & _ & _ & C & _ & _ & D);
    [|exact Hex].
  apply list_elem_of_fmap in Hl as Hl'. destruct Hl' as ([l' s] & -> & Hls).
  rewrite Forall_forall in D. destruct (D _ Hls) as (X1 & _ & _ & Hn).
  cbn [fst snd] in *. split.
  - apply exists_true in X1 as [n Hx]. apply namei_key in Hx as [_ Hx].
    rewrite norm_label, C in Hx by exact Hl.
    exists n. rewrite Hx. symmetry. apply node_at_lookup.
    unfold local_key. by destruct (cwd w).
  - by eapply output_through_dir.
Qed.

Lemma X9_labels_exist_witness :
  is_Some (files (main w_ok).1 !! local_key (cwd w_ok) "mipmap-mdpi")
  ∧ files (main w_ok).1 !! dir_key "mipmap-mdpi" = Some Dir.
Proof.
  apply (X9_labels_exist_in_both_places w_ok (main w_ok).1 "mipmap-mdpi").
  - vm_compute. reflexivity.
  - apply run_ok. vm_compute. reflexivity.
  - rewrite labels_eq. do 4 right. left.
Defined.

(** X10. The icons depend on the source picture alone: two runs that
    end without an exception on the same picture, in whatever trees and
    from whatever working directories, leave the same file at every
    output entry. *)
Theorem X10_icons_depend_on_source_only w1 w1' w2 w2' l :
  exists_ (files w1) (cwd w1) original_image_path = true →
  exists_ (files w2) (cwd w2) original_image_path = true →
  files w1 !! src_key = files w2 !! src_key →
  main w1 = (w1', inr ()) →
  main w2 = (w2', inr ()) →
  l ∈ labels →
  files w1' !! out_key l = files w2' !! out_key l.
Proof.
  intros Hex1 Hex2 Hsrc H1 H2 Hl.
  apply main_completed in H1
    as (fmt1 & m1 & sz1 & px1 & Hs1 & _ & _ & _ & _ & D1); [|exact Hex1].
  apply main_completed in H2
    as (fmt2 & m2 & sz2 & px2 & Hs2 & _ & _ & _ & _ & D2); [|exact Hex2].
  rewrite Hsrc, Hs2 in Hs1. injection Hs1 as <- <- <- <-.
  apply list_elem_of_fmap in Hl as ([l' s] & -> & Hls).
  rewrite Forall_forall in D1, D2.
  pose proof (done_entry_file _ _ _ _ (D1 _ Hls)) as F1.
  pose proof (done_entry_file _ _ _ _ (D2 _ Hls)) as F2.
  cbn [fst]. congruence.
Qed.

Lemma X10_icons_depend_on_source_only_witness :
  files (main w_ok).1 !! out_key "mipmap-mdpi"
  = files (main w_old).1 !! out_key "mipmap-mdpi".
Proof.
  apply (X10_icons_depend_on_source_only
           w_ok (main w_ok).1 w_old (main w_old).1 "mipmap-mdpi").
  - vm_compute. reflexivity.
  - vm_compute. reflexivity.
  - vm_compute. reflexivity.
  - apply run_ok. vm_compute. reflexivity.
  - apply run_ok. vm_compute. reflexivity.
  - rewrite labels_eq. do 4 right. left.
Defined.
